(** * starry-prx: the rewrite-and-relay pipeline of the proxy endpoint

    A shallow embedding of the endpoint [/api/proxy]: the URL resolver
    ([toAbsolute]), the link wrapper ([wrap]), the markup rewriter
    ([rewriteHtml]), the header filter ([filterResponseHeaders]) and the
    relay handler ([handler]).

    Strings are byte strings holding UTF-8 text, which is what
    [encodeURIComponent] works on.  The services of the platform the code
    calls (the URL constructor, the cheerio parser and serializer, the
    text decoder of fetch) are the fields of the class [Platform]. *)

From Stdlib Require Import Ascii String List Bool Arith NArith Lia Permutation.
From stdpp Require Import base option list strings gmap.

Local Open Scope string_scope.
Local Open Scope list_scope.

(** ** Characters and strings *)

Module Str.

Definition code (c : ascii) : nat := nat_of_ascii c.

Definition between (lo hi : nat) (c : ascii) : bool :=
  (lo <=? code c)%nat && (code c <=? hi)%nat.

Definition isUpper : ascii -> bool := between 65 90.
Definition isLower : ascii -> bool := between 97 122.
Definition isDigit : ascii -> bool := between 48 57.

Definition eqc (a b : ascii) : bool := Ascii.eqb a b.

(** [String.prototype.toLowerCase] on the ASCII letters; every other
    byte is kept.  The code compares the result with ASCII names and
    prefixes only, where this makes no difference: header names are
    HTTP tokens, and the one letter a character outside ASCII lowers to
    on its own (k, from the Kelvin sign) is in none of [mailto:], [tel:]
    and [javascript:]. *)
Definition lowerChar (c : ascii) : ascii :=
  if isUpper c then ascii_of_nat (code c + 32) else c.

Fixpoint toLowerCase (s : string) : string :=
  match s with
  | EmptyString => EmptyString
  | String c s' => String (lowerChar c) (toLowerCase s')
  end.

(** [s.startsWith(p)] *)
Fixpoint startsWith (p s : string) : bool :=
  match p with
  | EmptyString => true
  | String a p' =>
      match s with
      | EmptyString => false
      | String b s' => eqc a b && startsWith p' s'
      end
  end.

(** [s.includes(sub)] *)
Fixpoint includes (sub s : string) : bool :=
  startsWith sub s ||
  match s with
  | EmptyString => false
  | String _ s' => includes sub s'
  end.

Fixpoint allChars (P : ascii -> bool) (s : string) : bool :=
  match s with
  | EmptyString => true
  | String c s' => P c && allChars P s'
  end.

Fixpoint drop (n : nat) (s : string) : string :=
  match n, s with
  | O, _ => s
  | S _, EmptyString => EmptyString
  | S k, String _ s' => drop k s'
  end.

(** The text before the first [c], and the text after it when there is
    one. *)
Fixpoint cut (c : ascii) (s : string) : string * option string :=
  match s with
  | EmptyString => (EmptyString, None)
  | String a s' =>
      if eqc a c then (EmptyString, Some s')
      else let '(h, t) := cut c s' in (String a h, t)
  end.

(** [s.split(c)] for a one-character separator. *)
Fixpoint splitOn (c : ascii) (s : string) : list string :=
  match s with
  | EmptyString => [EmptyString]
  | String a s' =>
      if eqc a c then EmptyString :: splitOn c s'
      else match splitOn c s' with
           | h :: t => String a h :: t
           | [] => [String a EmptyString]
           end
  end.

End Str.

(** ** URL resolver and link wrapper *)

(** The platform services the endpoint calls.  [newURL u base] is
    [new URL(u, base)]: [None] when the constructor throws, otherwise the
    parsed URL, of which the code reads [protocol] and [toString()]. *)
Record URL := mkURL { protocol : string; href : string }.

#[warnings="-register-all"]
Inductive node :=
| Text (data : string)
| Comment (data : string)
| Element (name : string) (attribs : list (string * string)) (children : list node).

Class Platform := {
  newURL : string -> option string -> option URL;
  (** [cheerio.load(html, opts)]: the children of the document root *)
  load : string -> list node;
  (** the markup handed to [.html(str)] (context: the element's tag) and
      to [.prepend(str)] (no context), parsed into nodes *)
  parseFragment : option string -> string -> list node;
  (** the serializer behind [$.html()] and [$(el).html()] *)
  render : list node -> string;
  (** [Response.text()]: the body bytes decoded as text *)
  decodeText : string -> string
}.

Section Resolver.
  Context `{Platform}.

(** [toAbsolute]: the catch clause returns the reference itself. *)
Definition toAbsolute (url base : string) : string :=
  match newURL url (Some base) with
  | Some u => href u
  | None => url
  end.

End Resolver.

(** [encodeURIComponent]: the bytes of A-Z a-z 0-9 - _ . ! ~ * ' ( ) stay,
    every other byte of the UTF-8 text becomes [%XX] in upper-case hex. *)
Definition unreservedMarks : string :=
  "-_.!~*'()".

Fixpoint mem (c : ascii) (s : string) : bool :=
  match s with
  | EmptyString => false
  | String a s' => Str.eqc a c || mem c s'
  end.

Definition isUnreserved (c : ascii) : bool :=
  Str.isUpper c || Str.isLower c || Str.isDigit c || mem c unreservedMarks.

Definition hexDigit (n : nat) : ascii :=
  if (n <? 10)%nat then ascii_of_nat (48 + n) else ascii_of_nat (55 + n).

Definition encodeByte (c : ascii) : string :=
  String "%" (String (hexDigit (Str.code c / 16))
                     (String (hexDigit (Str.code c mod 16)) EmptyString)).

Fixpoint encodeURIComponent (s : string) : string :=
  match s with
  | EmptyString => EmptyString
  | String c s' =>
      if isUnreserved c then String c (encodeURIComponent s')
      else encodeByte c +:+ encodeURIComponent s'
  end.

(** [wrap]: the template literal of the source. *)
Definition wrap (url : string) : string :=
  "/api/proxy?url=" +:+ encodeURIComponent url.

(** ** Reading a query parameter back

    What the endpoint's framework does to fill [req.query]: the query is
    the text between the first [?] and the first [#]; its fields are
    separated by [&]; a field is cut at its first [=]; name and value are
    percent-decoded, a [+] standing for a space. *)

Definition hexValue (c : ascii) : option nat :=
  if Str.isDigit c then Some (Str.code c - 48)
  else if Str.between 65 70 c then Some (Str.code c - 55)
  else if Str.between 97 102 c then Some (Str.code c - 87)
  else None.

Fixpoint percentDecode (s : string) : string :=
  match s with
  | EmptyString => EmptyString
  | String c s' =>
      if Str.eqc c "%" then
        match s' with
        | String h (String l rest) =>
            match hexValue h, hexValue l with
            | Some a, Some b => String (ascii_of_nat (16 * a + b)) (percentDecode rest)
            | _, _ => String c (percentDecode s')
            end
        | _ => String c (percentDecode s')
        end
      else if Str.eqc c "+" then String " " (percentDecode s')
      else String c (percentDecode s')
  end.

Definition queryOf (path : string) : option string :=
  match Str.cut "?" path with
  | (_, Some q) => Some (fst (Str.cut "#" q))
  | (_, None) => None
  end.

Definition field (f : string) : string * string :=
  match Str.cut "=" f with
  | (k, Some v) => (percentDecode k, percentDecode v)
  | (k, None) => (percentDecode k, EmptyString)
  end.

Fixpoint lookupField (name : string) (fs : list string) : option string :=
  match fs with
  | [] => None
  | f :: fs' =>
      let '(k, v) := field f in
      if String.eqb k name then Some v else lookupField name fs'
  end.

Definition queryParam (name path : string) : option string :=
  match queryOf path with
  | Some q => lookupField name (Str.splitOn "&" q)
  | None => None
  end.

(** ** JavaScript objects with string keys

    [attribs] of an element and the [out] record of the header filter are
    plain objects: a property keeps the place of its first assignment and
    a later assignment replaces its value.  An object is held as its
    properties in the order of their first assignment; [entries] and
    [keys] are what [Object.entries] and [Object.keys] list, which puts
    the array indices first. *)

Module Obj.

Definition t := list (string * string).

Definition names (o : t) : list string := map fst o.

Fixpoint get (k : string) (o : t) : option string :=
  match o with
  | [] => None
  | (k', v) :: o' => if String.eqb k' k then Some v else get k o'
  end.

Fixpoint set (k v : string) (o : t) : t :=
  match o with
  | [] => [(k, v)]
  | (k', v') :: o' =>
      if String.eqb k' k then (k, v) :: o' else (k', v') :: set k v o'
  end.

(** [o[k] = v] on an object literal: [__proto__] names the accessor of
    the prototype, and a string assigned to it is not stored. *)
Definition assign (k v : string) (o : t) : t :=
  if String.eqb k "__proto__" then o else set k v o.

Fixpoint numeral (s : string) (acc : N) : option N :=
  match s with
  | EmptyString => Some acc
  | String c s' =>
      if Str.isDigit c then numeral s' (10 * acc + N.of_nat (Str.code c - 48))%N
      else None
  end.

(** An array index: the decimal numeral, written without a leading
    zero, of a number below 2^32 - 1. *)
Definition arrayIndex (k : string) : option N :=
  match k with
  | EmptyString => None
  | String c rest =>
      if Str.eqc c "0" && negb (String.eqb rest EmptyString) then None
      else match numeral k 0 with
           | Some n => if (n <? 4294967295)%N then Some n else None
           | None => None
           end
  end.

Fixpoint insertByIndex (n : N) (kv : string * string)
    (l : list (N * (string * string))) : list (N * (string * string)) :=
  match l with
  | [] => [(n, kv)]
  | (m, kv') :: l' =>
      if (n <=? m)%N then (n, kv) :: l else (m, kv') :: insertByIndex n kv l'
  end.

Fixpoint indexed (o : t) : list (N * (string * string)) :=
  match o with
  | [] => []
  | kv :: o' =>
      match arrayIndex (fst kv) with
      | Some n => insertByIndex n kv (indexed o')
      | None => indexed o'
      end
  end.

Definition named (o : t) : t :=
  List.filter (fun kv => match arrayIndex (fst kv) with Some _ => false | None => true end) o.

(** [Object.entries(o)]: the properties whose names are array indices,
    in ascending order of the index, then the others in the order of
    their first assignment. *)
Definition entries (o : t) : t := map snd (indexed o) ++ named o.

(** [Object.keys(o)] *)
Definition keys (o : t) : list string := map fst (entries o).

End Obj.

(** ** Markup rewriter *)

Definition attrTargets : list (string * string) :=
  [ ("a", "href"); ("link", "href"); ("img", "src"); ("script", "src");
    ("iframe", "src"); ("source", "src"); ("video", "src"); ("audio", "src");
    ("form", "action") ].

(** The two early returns on the attribute's text: a fragment reference,
    or one of the three schemes in any letter case. *)
Definition skipped (value : string) : bool :=
  Str.startsWith "#" value ||
  (let low := Str.toLowerCase value in
   Str.startsWith "mailto:" low || Str.startsWith "tel:" low
   || Str.startsWith "javascript:" low).

(** [$(tag).each(f)]: [f] runs on every element named [tag], in document
    order; the callbacks of the rewriter touch the element's own
    attributes only. *)
Fixpoint each (tag : string) (f : Obj.t -> Obj.t) (n : node) : node :=
  match n with
  | Element name a cs =>
      Element name (if String.eqb name tag then f a else a) (map (each tag f) cs)
  | _ => n
  end.

(** [$("style").each(el => $(el).html(g($(el).html())))]: the children of
    a style element are replaced as a whole, so nothing below it is
    visited in the tree. *)
Fixpoint eachStyle (g : list node -> list node) (n : node) : node :=
  match n with
  | Element name a cs =>
      if String.eqb name "style" then Element name a (g cs)
      else Element name a (map (eachStyle g) cs)
  | _ => n
  end.

(** [$(tag).prepend(ns)] *)
Fixpoint prepend (tag : string) (ns : list node) (n : node) : node :=
  match n with
  | Element name a cs =>
      Element name a ((if String.eqb name tag then ns else []) ++ map (prepend tag ns) cs)
  | _ => n
  end.

(** *** The pattern [/url\(([^)]+)\)/g] *)

(** A match at the head of [s]: the literal [url(], one or more
    characters other than a closing parenthesis, the closing parenthesis.
    Returns the captured group and the text after the match. *)
Definition matchUrl (s : string) : option (string * string) :=
  if Str.startsWith "url(" s then
    match Str.cut ")" (Str.drop 4 s) with
    | (EmptyString, _) => None
    | (p1, Some rest) => Some (p1, rest)
    | (_, None) => None
    end
  else None.

(** [s.replace(/url\(([^)]+)\)/g, f)]: the matches are found left to
    right and do not overlap; [skip] counts the characters of the last
    match that are still to be passed over. *)
Fixpoint replaceUrls (f : string -> string -> string) (skip : nat) (s : string) : string :=
  match s with
  | EmptyString => EmptyString
  | String c s' =>
      match skip with
      | S k => replaceUrls f k s'
      | O =>
          match matchUrl s with
          | Some (p1, _) =>
              f ("url(" +:+ p1 +:+ ")") p1 +:+ replaceUrls f (4 + String.length p1) s'
          | None => String c (replaceUrls f 0 s')
          end
      end
  end.

(** *** [trim] and the quote pattern [/^['"]|['"]$/g] *)

(** White space and line terminators of the language beyond ASCII, as
    UTF-8 byte sequences: U+00A0, U+1680, U+2000 to U+200A, U+2028,
    U+2029, U+202F, U+205F, U+3000, U+FEFF. *)
Definition isSpace1 (a : ascii) : bool :=
  Str.between 9 13 a || Nat.eqb (Str.code a) 32.

Definition isSpace2 (a b : ascii) : bool :=
  Nat.eqb (Str.code a) 194 && Nat.eqb (Str.code b) 160.

Definition isSpace3 (a b c : ascii) : bool :=
  let '(x, y, z) := (Str.code a, Str.code b, Str.code c) in
  (Nat.eqb x 225 && Nat.eqb y 154 && Nat.eqb z 128)
  || (Nat.eqb x 226 && Nat.eqb y 128
      && ((128 <=? z)%nat && (z <=? 138)%nat || Nat.eqb z 168 || Nat.eqb z 169 || Nat.eqb z 175))
  || (Nat.eqb x 226 && Nat.eqb y 129 && Nat.eqb z 159)
  || (Nat.eqb x 227 && Nat.eqb y 128 && Nat.eqb z 128)
  || (Nat.eqb x 239 && Nat.eqb y 187 && Nat.eqb z 191).

Fixpoint trimStart (s : string) : string :=
  match s with
  | String a s1 =>
      if isSpace1 a then trimStart s1
      else match s1 with
           | String b s2 =>
               if isSpace2 a b then trimStart s2
               else match s2 with
                    | String c s3 => if isSpace3 a b c then trimStart s3 else s
                    | EmptyString => s
                    end
           | EmptyString => s
           end
  | EmptyString => s
  end.

Definition isBlank (s : string) : bool :=
  match trimStart s with EmptyString => true | _ => false end.

Fixpoint trimEnd (s : string) : string :=
  match s with
  | EmptyString => EmptyString
  | String a s' => if isBlank s then EmptyString else String a (trimEnd s')
  end.

Definition trim (s : string) : string := trimEnd (trimStart s).

Definition apostrophe : ascii := "039"%char.
Definition dquote : ascii := "034"%char.

Definition isQuote (c : ascii) : bool := Str.eqc c apostrophe || Str.eqc c dquote.

Fixpoint dropFinalQuote (s : string) : string :=
  match s with
  | EmptyString => EmptyString
  | String c EmptyString => if isQuote c then EmptyString else s
  | String c s' => String c (dropFinalQuote s')
  end.

Definition stripQuotes (s : string) : string :=
  dropFinalQuote
    match s with
    | String c s' => if isQuote c then s' else s
    | EmptyString => s
    end.

(** *** The navigation bar, as the template literal spells it *)

Definition dq : string := String dquote EmptyString.
Definition nl : string := String "010"%char EmptyString.

Definition toolbar (baseUrl : string) : string :=
  nl +:+ "    <div id=" +:+ dq +:+ "proxy-bar" +:+ dq +:+ " style=" +:+ dq
  +:+ "position:fixed;top:0;left:0;right:0;background:#111;color:#eee;font:14px/1.4 sans-serif;padding:8px;z-index:999999;"
  +:+ dq +:+ ">" +:+ nl
  +:+ "      <form action=" +:+ dq +:+ "/api/proxy" +:+ dq +:+ " method=" +:+ dq +:+ "GET" +:+ dq
  +:+ " style=" +:+ dq +:+ "display:flex;gap:8px;" +:+ dq +:+ ">" +:+ nl
  +:+ "        <input type=" +:+ dq +:+ "text" +:+ dq +:+ " name=" +:+ dq +:+ "url" +:+ dq
  +:+ " value=" +:+ dq +:+ baseUrl +:+ dq +:+ " style=" +:+ dq
  +:+ "flex:1;padding:6px;border-radius:4px;border:1px solid #333;background:#222;color:#eee;"
  +:+ dq +:+ " />" +:+ nl
  +:+ "        <button type=" +:+ dq +:+ "submit" +:+ dq +:+ " style=" +:+ dq
  +:+ "padding:6px 10px;border-radius:4px;background:#444;color:#eee;border:1px solid #333;"
  +:+ dq +:+ ">Go</button>" +:+ nl
  +:+ "        <span style=" +:+ dq +:+ "margin-left:auto;opacity:0.8" +:+ dq
  +:+ ">Proxying: " +:+ baseUrl +:+ "</span>" +:+ nl
  +:+ "      </form>" +:+ nl
  +:+ "    </div>" +:+ nl
  +:+ "    <style>html,body{margin-top:40px !important}</style>" +:+ nl
  +:+ "  ".

Section Rewriter.
  Context `{Platform}.

(** The body of the callback of the attribute loop, on the attributes
    of one element named [tag]. *)
Definition rewriteAttr (tag attr baseUrl : string) (a : Obj.t) : Obj.t :=
  match Obj.get attr a with
  | None => a
  | Some EmptyString => a
  | Some value =>
      if Str.startsWith "#" value then a
      else
        let low := Str.toLowerCase value in
        if Str.startsWith "mailto:" low || Str.startsWith "tel:" low
           || Str.startsWith "javascript:" low
        then a
        else
          let abs := toAbsolute value baseUrl in
          let a1 := if String.eqb tag "form" then Obj.set "method" "GET" a else a in
          Obj.set attr (wrap abs) a1
  end.

(** The loop over [attrTargets]. *)
Definition rewriteAttrs (baseUrl : string) (doc : list node) : list node :=
  fold_left
    (fun d '(tag, attr) => map (each tag (rewriteAttr tag attr baseUrl)) d)
    attrTargets doc.

(** The callback of the style pattern. *)
Definition replaceUrl (baseUrl : string) (matched p1 : string) : string :=
  let raw := stripQuotes (trim p1) in
  if Str.startsWith "data:" raw then matched
  else
    let abs := toAbsolute raw baseUrl in
    "url(" +:+ wrap abs +:+ ")".

Definition rewriteCss (baseUrl css : string) : string :=
  replaceUrls (replaceUrl baseUrl) 0 css.

Definition rewriteStyle (baseUrl : string) (cs : list node) : list node :=
  let css := render cs in
  parseFragment (Some "style") (rewriteCss baseUrl css).

Definition injectToolbar (baseUrl : string) (doc : list node) : list node :=
  map (prepend "body" (parseFragment None (toolbar baseUrl))) doc.

(** The document after the three passes, before it is serialized. *)
Definition rewriteDoc (baseUrl : string) (doc : list node) : list node :=
  injectToolbar baseUrl
    (map (eachStyle (rewriteStyle baseUrl)) (rewriteAttrs baseUrl doc)).

Definition rewriteHtml (html baseUrl : string) : string :=
  render (rewriteDoc baseUrl (load html)).

End Rewriter.

(** ** Header filter *)

(** A [Headers] object, as the sequence of (name, value) pairs its
    [forEach] visits (a name can come more than once, as set-cookie
    does). *)
Definition Headers := list (string * string).

Definition hopByHop : list string :=
  [ "connection"; "keep-alive"; "proxy-authenticate"; "proxy-authorization";
    "te"; "trailer"; "transfer-encoding"; "upgrade" ].

Definition has (set : list string) (k : string) : bool :=
  existsb (String.eqb k) set.

(** The body of the [forEach] callback: the three early returns, then the
    assignment [out[key] = value]. *)
Definition filterStep (out : Obj.t) (kv : string * string) : Obj.t :=
  let '(key, value) := kv in
  let k := Str.toLowerCase key in
  if has hopByHop k then out
  else if String.eqb k "content-security-policy" || String.eqb k "x-frame-options" then out
  else if String.eqb k "set-cookie" then out
  else Obj.assign key value out.

Definition isContentType (k : string) : bool :=
  String.eqb (Str.toLowerCase k) "content-type".

(** [out] when the [forEach] is over. *)
Definition passThrough (headers : Headers) : Obj.t :=
  fold_left filterStep headers [].

(** The function takes a [Headers] object and returns a plain object:
    the two are held as pairs alike, but they are different things, and
    the function cannot be run on what it returns. *)
Definition filterResponseHeaders (headers : Headers) : Obj.t :=
  let out := passThrough headers in
  if negb (existsb isContentType (Obj.keys out))
  then Obj.assign "Content-Type" "text/plain; charset=utf-8" out
  else out.

(** ** Relay handler *)

(** [headers.get(name)]: names compare without regard to letter case. *)
Fixpoint headersGet (name : string) (hs : Headers) : option string :=
  match hs with
  | [] => None
  | (k, v) :: hs' =>
      if String.eqb (Str.toLowerCase k) (Str.toLowerCase name) then Some v
      else headersGet name hs'
  end.

(** [x || d] on a possibly missing string: the empty string is falsy. *)
Definition orElse (x : option string) (d : string) : string :=
  match x with
  | Some EmptyString | None => d
  | Some s => s
  end.

Record Response := mkResponse {
  status : nat;
  headers : Headers;
  body : string
}.

(** What the awaited calls on the upstream come to: a response whose
    body could be read, or a thrown error with its message.  [Threw]
    stands for a throw of [fetch] and for one of the reading of the body
    ([arrayBuffer()], [text()]) alike: both come before the handler has
    set anything on [res], and both end in the catch clause. *)
Inductive FetchResult :=
| Fetched (upstream : Response)
| Threw (message : string).

(** The outgoing [res] as the handler's own calls leave it: the status
    and the payload it hands to [send], and the headers it has set.
    [setHeader] files a header under its lower-cased name, so a second
    call for the same name in another case replaces the first.  What the
    framework's [send] does next on its own account (an ETag and a
    Content-Length of its making, no content type on a 204 or 304) is
    not part of this record. *)
Record ServerResponse := mkServerResponse {
  statusCode : nat;
  outHeaders : gmap string string;
  sent : string
}.

Definition res0 : ServerResponse := mkServerResponse 200 ∅ EmptyString.

Definition setHeader (name value : string) (res : ServerResponse) : ServerResponse :=
  mkServerResponse (statusCode res) (<[Str.toLowerCase name := value]> (outHeaders res)) (sent res).

Definition getHeader (name : string) (res : ServerResponse) : option string :=
  outHeaders res !! Str.toLowerCase name.

(** [res.status(code).send(payload)]: the status and the payload are
    recorded, the headers are the ones set so far. *)
Definition send (code : nat) (payload : string) (res : ServerResponse) : ServerResponse :=
  mkServerResponse code (outHeaders res) payload.

(** [Object.entries(headers).forEach(([k, v]) => res.setHeader(k, v))] *)
Definition copyHeaders (headers : Obj.t) (res : ServerResponse) : ServerResponse :=
  fold_left (fun r '(k, v) => setHeader k v r) (Obj.entries headers) res.

Section Handler.
  Context `{Platform}.

(** The handler from the point where the upstream response is in and
    its body read.  The parser and the serializer are total functions of
    the platform, and a header value that a fetch delivers is one that
    [setHeader] accepts: nothing else in the try block is taken to
    throw. *)
Definition relay (url : URL) (upstream : Response) : ServerResponse :=
  let status := status upstream in
  let headers' := filterResponseHeaders (headers upstream) in
  let contentType := orElse (headersGet "content-type" (headers upstream)) EmptyString in
  let isHtml := Str.includes "text/html" contentType in
  if negb isHtml then
    let buf := body upstream in
    let res := setHeader "Content-Type" (orElse (Some contentType) "application/octet-stream") res0 in
    let res := copyHeaders headers' res in
    send status buf res
  else
    let text := decodeText (body upstream) in
    let rewritten := rewriteHtml text (href url) in
    let res := setHeader "Content-Type" "text/html; charset=utf-8" res0 in
    let res := copyHeaders headers' res in
    send status rewritten res.

Definition defaultUserAgent : string :=
  "Mozilla/5.0 (Proxy) AppleWebKit/537.36 (KHTML, like Gecko) Chrome Safari".

(** [queryUrl] is [req.query.url], [reqHeader] reads [req.headers], and
    [fetch] stands for the network: the URL and the request headers in,
    the outcome of the awaited call out. *)
Definition handler (queryUrl : option string) (reqHeader : string -> option string)
    (fetch : string -> Obj.t -> FetchResult) : ServerResponse :=
  let target := orElse queryUrl EmptyString in
  match target with
  | EmptyString => send 400 "Missing ?url= parameter" res0
  | _ =>
      match newURL target None with
      | None => send 400 "Invalid URL" res0
      | Some url =>
          if negb (has ["http:"; "https:"] (protocol url))
          then send 400 "Only http/https supported" res0
          else
            match fetch (href url)
                    [ ("user-agent", orElse (reqHeader "user-agent") defaultUserAgent);
                      ("accept", orElse (reqHeader "accept") "*/*");
                      ("accept-language", orElse (reqHeader "accept-language") "en-US,en;q=0.9") ]
            with
            | Fetched upstream => relay url upstream
            | Threw message => send 502 ("Upstream fetch failed: " +:+ message) res0
            end
      end
  end.

End Handler.

(** ** Vocabulary of the statements *)

(** The characters [encodeURIComponent] can produce. *)
Definition uriChar (c : ascii) : bool :=
  isUnreserved c || Str.eqc c "%" || Str.isDigit c || Str.between 65 70 c.

(** The header policy as the design names it: the eight hop-by-hop
    names, the two security headers and the cookie header. *)
Definition droppedNames : list string :=
  [ "connection"; "keep-alive"; "proxy-authenticate"; "proxy-authorization";
    "te"; "trailer"; "transfer-encoding"; "upgrade";
    "content-security-policy"; "x-frame-options"; "set-cookie" ].

Definition dropped (name : string) : bool :=
  has droppedNames (Str.toLowerCase name).

(** The names that do not come out of the filter's loop: the header
    policy, and the one name the object does not store. *)
Definition lost (name : string) : bool :=
  dropped name || String.eqb name "__proto__".

(** The value a [Headers] sequence gives a name: the one of its last
    pair under exactly that name. *)
Definition latest (name : string) (hs : Headers) : option string :=
  Obj.get name (rev hs).

Definition plainText : string * string :=
  ("Content-Type", "text/plain; charset=utf-8").

(** The element nodes of a tree in document order.  What lies below a
    style element is left out: the style pass serializes and re-parses
    it, so those nodes are not the ones of the output. *)
Fixpoint nodes (n : node) : list node :=
  match n with
  | Element name _ cs =>
      n :: (if String.eqb name "style" then [] else flat_map nodes cs)
  | _ => []
  end.

(** Some element of the tree, at any depth, is named [tag]. *)
Fixpoint hasTag (tag : string) (n : node) : bool :=
  match n with
  | Element name _ cs => String.eqb name tag || existsb (hasTag tag) cs
  | _ => false
  end.

(** Induction on trees, the children of an element taken together. *)
Section NodeInduction.
  Variable P : node -> Prop.
  Hypothesis HText : forall s, P (Text s).
  Hypothesis HComment : forall s, P (Comment s).
  Hypothesis HElement : forall name a cs, List.Forall P cs -> P (Element name a cs).

Fixpoint node_induction (n : node) : P n :=
  match n with
  | Text s => HText s
  | Comment s => HComment s
  | Element name a cs =>
      HElement name a cs
        ((fix all (l : list node) : List.Forall P l :=
            match l with
            | [] => @List.Forall_nil _ P
            | c :: l' => @List.Forall_cons _ P c l' (node_induction c) (all l')
            end) cs)
  end.
End NodeInduction.

(** A pass keeps names, and outside style elements it maps the children
    one by one, possibly after some new ones. *)
Definition pass (F : node -> node) : Prop :=
  (forall s, F (Text s) = Text s) /\
  (forall s, F (Comment s) = Comment s) /\
  forall name a cs, exists a' cs',
    F (Element name a cs) = Element name a' cs' /\
    (String.eqb name "style" = false -> exists pre, cs' = pre ++ map F cs).

(** No match of the pattern starts inside [pre] when [rest] follows. *)
Fixpoint literal (pre rest : string) : bool :=
  match pre with
  | EmptyString => true
  | String _ pre' =>
      match matchUrl (pre +:+ rest) with
      | None => literal pre' rest
      | Some _ => false
      end
  end.

Definition noneIs (sep : ascii) (s : string) : bool :=
  Str.allChars (fun c => negb (Str.eqc c sep)) s.

(** The attribute is absent, empty, a fragment reference or one of the
    three schemes: the cases in which the callback returns early. *)
Definition untouched (attr : string) (a : Obj.t) : bool :=
  match Obj.get attr a with
  | None => true
  | Some v => String.eqb v EmptyString || skipped v
  end.

Section PerElement.
  Context `{Platform}.

(** What the attribute loop does to the attributes of one element
    named [tag], pass after pass. *)
Definition applyRules (baseUrl tag : string) (a : Obj.t) : Obj.t :=
  fold_left
    (fun a '(tg, attr) => if String.eqb tag tg then rewriteAttr tg attr baseUrl a else a)
    attrTargets a.

(** The three passes on one node. *)
Definition rewriteNode (baseUrl : string) (n : node) : node :=
  prepend "body" (parseFragment None (toolbar baseUrl))
    (eachStyle (rewriteStyle baseUrl)
       (fold_left (fun n '(tg, attr) => each tg (rewriteAttr tg attr baseUrl) n)
          attrTargets n)).

End PerElement.

(** *** A small platform to run the examples on

    The URL constructor of the examples answers on two kinds of input,
    and there as the URL standard does:
    - an absolute URL [scheme://host] or [scheme://host/rest] with the
      scheme [http], [https] or [ftp], a host made of labels of
      lower-case letters with single dots between them, and a rest the
      standard keeps as it is written: path segments of letters,
      digits, [-], [_], [.] and [~] other than the dot segments [.] and
      [..], then at most one query of letters, digits and [-_.~=&%];
    - a reference [/rest] of that form that does not start with [//],
      against such an absolute URL as base: the scheme and the host of
      the base, then the reference.
    The path is [/] where none is written.  Every other input is
    answered [None].  The standard says so of [http://[], the one such
    input the examples use; it does not say so of all the others (a
    relative path, capitals in the host, a character the standard
    escapes or removes), and the examples keep away from those.
    Markup is kept as one text node. *)

Definition splitAbsolute (s : string) : option (string * string * string) :=
  let split p rest :=
    let '(host, path) := Str.cut "/" rest in
    Some (p, host, match path with Some t => "/" +:+ t | None => EmptyString end) in
  if Str.startsWith "https://" s then split "https:" (Str.drop 8 s)
  else if Str.startsWith "http://" s then split "http:" (Str.drop 7 s)
  else if Str.startsWith "ftp://" s then split "ftp:" (Str.drop 6 s)
  else None.

Definition plainHost (host : string) : bool :=
  forallb (fun l => negb (String.eqb l EmptyString) && Str.allChars Str.isLower l)
    (Str.splitOn "." host).

Definition segmentChar (c : ascii) : bool :=
  Str.isLower c || Str.isUpper c || Str.isDigit c || mem c "-_.~".

Definition queryChar (c : ascii) : bool :=
  segmentChar c || mem c "=&%".

Definition plainSegment (seg : string) : bool :=
  Str.allChars segmentChar seg && negb (String.eqb seg ".") && negb (String.eqb seg "..").

(** The text behind the host: nothing, or a path and at most a query
    that the standard leaves unchanged. *)
Definition plainRest (rest : string) : bool :=
  let '(path, query) := Str.cut "?" rest in
  forallb plainSegment (Str.splitOn "/" path)
  && match query with
     | Some q => Str.allChars queryChar q
     | None => true
     end.

Definition sampleURL (u : string) (base : option string) : option URL :=
  match splitAbsolute u with
  | Some (p, host, rest) =>
      if plainHost host && plainRest rest
      then Some (mkURL p (p +:+ "//" +:+ host
                          +:+ (if String.eqb rest EmptyString then "/" else rest)))
      else None
  | None =>
      match base with
      | Some b =>
          match splitAbsolute b with
          | Some (p, host, rest) =>
              if plainHost host && plainRest rest
                 && Str.startsWith "/" u && negb (Str.startsWith "//" u) && plainRest u
              then Some (mkURL p (p +:+ "//" +:+ host +:+ u))
              else None
          | None => None
          end
      | None => None
      end
  end.

Fixpoint sampleRender (n : node) : string :=
  match n with
  | Text s => s
  | Comment s => "<!--" +:+ s +:+ "-->"
  | Element name _ cs =>
      "<" +:+ name +:+ ">" +:+ String.concat EmptyString (map sampleRender cs)
      +:+ "</" +:+ name +:+ ">"
  end.

Definition samplePlatform : Platform := {|
  newURL := sampleURL;
  load := fun html => [Element "html" [] [Element "head" [] []; Element "body" [] [Text html]]];
  parseFragment := fun _ s => [Text s];
  render := fun ns => String.concat EmptyString (map sampleRender ns);
  decodeText := fun s => s
|}.

(** *** The documents of the examples *)

Definition anchorDoc : list node :=
  [Element "a" [("href", "/x")] [Text "go"]].

Definition mailDoc : list node :=
  [Element "a" [("href", "mailto:a@b.com")] [Text "mail"]].

Definition formDoc : list node :=
  [Element "form" [("action", "/submit"); ("method", "POST")] []].

Definition bareFormDoc : list node :=
  [Element "form" [("method", "POST")] []].

Definition brokenDoc : list node :=
  [Element "a" [("href", "http://[")] []; Element "img" [("src", "/logo.png")] []].

Definition styleText : list node :=
  [Text ".a{background:url(/img.png)}"].

(** A style text whose reference is quoted and padded with blanks, and
    one whose [data:] reference comes after a blank. *)
Definition quotedStyleText : list node :=
  [Text ".a{background:url( '/img.png' )}"].

Definition paddedDataText : list node :=
  [Text ".a{background:url( data:x)}"].

Definition noBodyDoc : list node :=
  [Element "div" [] [Text "hi"]].

(** ** The entry page

    [normalize] and [submit] of the page that builds the first proxy
    link.  The pattern [/^https?:\/\//i] is a test on the lower-cased
    text; [submit] either alerts and leaves everything as it is, or
    stores the new history (in the component state and, as JSON, in
    local storage) and navigates. *)

Definition hasScheme (raw : string) : bool :=
  let low := Str.toLowerCase raw in
  Str.startsWith "http://" low || Str.startsWith "https://" low.

(** [[n, ...history.filter(h => h !== n)].slice(0, 8)] *)
Definition updateHistory (n : string) (history : list string) : list string :=
  firstn 8 (n :: List.filter (fun h => negb (String.eqb h n)) history).

Inductive Outcome :=
| Alert (message : string)
| Navigate (updated : list string) (location : string).

Section Page.
Context `{Platform}.

Definition normalize (raw : string) : string :=
  match newURL (if hasScheme raw then raw else "https://" +:+ raw) None with
  | Some u => href u
  | None => EmptyString
  end.

Definition submit (url : string) (history : list string) : Outcome :=
  let n := normalize (trim url) in
  match n with
  | EmptyString => Alert "Enter a valid URL, e.g. https://example.com"
  | _ =>
      let updated := updateHistory n history in
      Navigate updated ("/api/proxy?url=" +:+ encodeURIComponent n)
  end.

End Page.

(** ** Vocabulary of the further statements *)

(** A tree with every attribute list emptied: what is left is the
    names, the texts, the comments and the nesting. *)
Fixpoint eraseAttrs (n : node) : node :=
  match n with
  | Element name _ cs => Element name [] (map eraseAttrs cs)
  | _ => n
  end.

(** The request headers of the one outbound call. *)
Definition outbound `{Platform} (reqHeader : string -> option string) : Obj.t :=
  [ ("user-agent", orElse (reqHeader "user-agent") defaultUserAgent);
    ("accept", orElse (reqHeader "accept") "*/*");
    ("accept-language", orElse (reqHeader "accept-language") "en-US,en;q=0.9") ].

(** A request carrying a cookie, and a network that reports the cookie
    it is handed, for the examples. *)
Definition cookieRequest (name : string) : option string :=
  if String.eqb name "cookie" then Some "s=1" else None.

Definition cookieProbe (_ : string) (hs : Obj.t) : FetchResult :=
  match Obj.get "cookie" hs with
  | Some c => Threw c
  | None => Threw "no cookie"
  end.

(** The three rejections of the handler: no target, a target the URL
    constructor refuses, a scheme other than http and https. *)
Definition rejected `{Platform} (queryUrl : option string) : bool :=
  match orElse queryUrl EmptyString with
  | EmptyString => true
  | target =>
      match newURL target None with
      | None => true
      | Some url => negb (has ["http:"; "https:"] (protocol url))
      end
  end.

(** The attributes the loop may write on an element named [tag]: the
    attribute of its rule, and [method] on a form. *)
Definition touches (tag k : string) : bool :=
  existsb (fun '(tg, attr) => String.eqb tag tg && String.eqb k attr) attrTargets
  || (String.eqb tag "form" && String.eqb k "method").

Definition startsWithQuote (s : string) : bool :=
  match s with
  | String c _ => isQuote c
  | EmptyString => false
  end.

Fixpoint endsWithQuote (s : string) : bool :=
  match s with
  | EmptyString => false
  | String c EmptyString => isQuote c
  | String _ s' => endsWithQuote s'
  end.

(** *** The captured content of a [url(...)] occurrence

    The white space [trim] removes, as the language defines it, one unit
    per code point in UTF-8: U+0009 to U+000D, U+0020, U+00A0, U+1680,
    U+2000 to U+200A, U+2028, U+2029, U+202F, U+205F, U+3000, U+FEFF. *)
Definition ofCodes (l : list nat) : string :=
  fold_right (fun n s => String (ascii_of_nat n) s) EmptyString l.

Definition whiteUnits : list string :=
  map ofCodes
    [ [9]; [10]; [11]; [12]; [13]; [32]; [194; 160]; [225; 154; 128];
      [226; 128; 128]; [226; 128; 129]; [226; 128; 130]; [226; 128; 131];
      [226; 128; 132]; [226; 128; 133]; [226; 128; 134]; [226; 128; 135];
      [226; 128; 136]; [226; 128; 137]; [226; 128; 138];
      [226; 128; 168]; [226; 128; 169]; [226; 128; 175]; [226; 129; 159];
      [227; 128; 128]; [239; 187; 191] ].

(** A run of white space. *)
Inductive white : string -> Prop :=
| white_nil : white EmptyString
| white_cons u w : In u whiteUnits -> white w -> white (u +:+ w).

(** A printing ASCII character other than the blank. *)
Definition visible (c : ascii) : bool := Str.between 33 126 c.

(** The text is empty or starts (ends) with a visible character. *)
Definition firstVisible (s : string) : bool :=
  match s with
  | String c _ => visible c
  | EmptyString => true
  end.

Fixpoint lastVisible (s : string) : bool :=
  match s with
  | EmptyString => true
  | String c EmptyString => visible c
  | String _ s' => lastVisible s'
  end.

(** [shaped body content]: [content] is [body] without the quote
    character it starts with, if it starts with one, and without the
    quote character it ends with, if it ends with one. *)
Inductive shaped : string -> string -> Prop :=
| shaped_bare content :
    startsWithQuote content = false -> endsWithQuote content = false ->
    shaped content content
| shaped_quoted q1 q2 content :
    isQuote q1 = true -> isQuote q2 = true ->
    shaped (String q1 (content +:+ String q2 EmptyString)) content
| shaped_opened q1 content :
    isQuote q1 = true -> endsWithQuote content = false ->
    shaped (String q1 content) content
| shaped_closed q2 content :
    startsWithQuote (content +:+ String q2 EmptyString) = false -> isQuote q2 = true ->
    shaped (content +:+ String q2 EmptyString) content.

(** * Properties *)

(** ** The link wrapper round trip *)

Ltac each_ascii c :=
  destruct c as [[|] [|] [|] [|] [|] [|] [|] [|]].

Lemma allChars_app P s t :
  Str.allChars P (s +:+ t) = Str.allChars P s && Str.allChars P t.
Proof.
  induction s as [|c s IH]; simpl; [reflexivity|].
  rewrite IH. apply andb_assoc.
Qed.

Lemma allChars_weaken (P Q : ascii -> bool) s :
  (forall c, P c = true -> Q c = true) ->
  Str.allChars P s = true -> Str.allChars Q s = true.
Proof.
  intros HPQ. induction s as [|c s IH]; simpl; [reflexivity|].
  intros [Hc Hs]%andb_prop. rewrite (HPQ _ Hc), (IH Hs). reflexivity.
Qed.

Lemma encodeByte_chars c : Str.allChars uriChar (encodeByte c) = true.
Proof. each_ascii c; reflexivity. Qed.

Lemma encodeURIComponent_chars s :
  Str.allChars uriChar (encodeURIComponent s) = true.
Proof.
  induction s as [|c s IH]; simpl; [reflexivity|].
  destruct (isUnreserved c) eqn:Hc.
  - simpl. rewrite IH. unfold uriChar. rewrite Hc. reflexivity.
  - rewrite allChars_app, encodeByte_chars, IH. reflexivity.
Qed.

Lemma uriChar_not sep :
  uriChar sep = false -> forall c, uriChar c = true -> negb (Str.eqc c sep) = true.
Proof.
  intros Hsep c Hc. destruct (Str.eqc c sep) eqn:E; [|reflexivity].
  apply Ascii.eqb_eq in E. congruence.
Qed.

Lemma cut_absent sep s :
  Str.allChars (fun c => negb (Str.eqc c sep)) s = true -> Str.cut sep s = (s, None).
Proof.
  induction s as [|c s IH]; simpl; [reflexivity|].
  intros [Hc Hs]%andb_prop. apply negb_true_iff in Hc. rewrite Hc, (IH Hs). reflexivity.
Qed.

Lemma splitOn_absent sep s :
  Str.allChars (fun c => negb (Str.eqc c sep)) s = true -> Str.splitOn sep s = [s].
Proof.
  induction s as [|c s IH]; simpl; [reflexivity|].
  intros [Hc Hs]%andb_prop. apply negb_true_iff in Hc. rewrite Hc, (IH Hs). reflexivity.
Qed.

Lemma decode_encodeByte c s :
  percentDecode (encodeByte c +:+ s) = String c (percentDecode s).
Proof. each_ascii c; reflexivity. Qed.

Lemma unreserved_plain c :
  isUnreserved c = true -> Str.eqc c "%" = false /\ Str.eqc c "+" = false.
Proof. each_ascii c; intros E; try discriminate E; split; reflexivity. Qed.

Lemma percentDecode_encode s : percentDecode (encodeURIComponent s) = s.
Proof.
  induction s as [|c s IH]; [reflexivity|].
  cbn [encodeURIComponent]. destruct (isUnreserved c) eqn:Hc.
  - destruct (unreserved_plain c Hc) as [E1 E2].
    cbn [percentDecode]. rewrite E1, E2, IH. reflexivity.
  - rewrite decode_encodeByte, IH. reflexivity.
Qed.

Lemma cut_app_absent sep p s :
  Str.allChars (fun c => negb (Str.eqc c sep)) p = true ->
  Str.cut sep (p +:+ s) = (p +:+ fst (Str.cut sep s), snd (Str.cut sep s)).
Proof.
  induction p as [|c p IH]; intros Hp.
  - change (Str.cut sep s = (fst (Str.cut sep s), snd (Str.cut sep s))).
    destruct (Str.cut sep s); reflexivity.
  - apply andb_prop in Hp as [Hc Hp]. apply negb_true_iff in Hc.
    change (String c p +:+ s) with (String c (p +:+ s)).
    cbn [Str.cut]. rewrite Hc, (IH Hp). reflexivity.
Qed.

Lemma cut_app_found sep p s :
  Str.allChars (fun c => negb (Str.eqc c sep)) p = true ->
  Str.cut sep (p +:+ String sep s) = (p, Some s).
Proof.
  intros Hp. rewrite (cut_app_absent _ _ _ Hp). cbn [Str.cut].
  unfold Str.eqc. rewrite Ascii.eqb_refl. cbn [fst snd].
  f_equal. induction p as [|c p IH]; [reflexivity|].
  apply andb_prop in Hp as [_ Hp].
  change (String c p +:+ EmptyString) with (String c (p +:+ EmptyString)). rewrite (IH Hp). reflexivity.
Qed.

Lemma encoded_free_of sep s :
  uriChar sep = false -> noneIs sep (encodeURIComponent s) = true.
Proof.
  intros Hsep. unfold noneIs.
  eapply allChars_weaken; [apply (uriChar_not sep Hsep)|apply encodeURIComponent_chars].
Qed.

(** The query of a wrapped path is the one field [url=...]. *)
Lemma queryOf_wrap s : queryOf (wrap s) = Some ("url=" +:+ encodeURIComponent s).
Proof.
  unfold queryOf, wrap.
  change ("/api/proxy?url=" +:+ encodeURIComponent s)
    with ("/api/proxy" +:+ String "?" ("url=" +:+ encodeURIComponent s)).
  rewrite cut_app_found by reflexivity.
  rewrite (cut_absent "#"); [reflexivity|].
  rewrite allChars_app. apply (encoded_free_of "#" s). reflexivity.
Qed.

Lemma lookupField_url s :
  lookupField "url" (Str.splitOn "&" ("url=" +:+ encodeURIComponent s)) = Some s.
Proof.
  rewrite (splitOn_absent "&")
    by (rewrite allChars_app; apply (encoded_free_of "&" s); reflexivity).
  cbn [lookupField]. unfold field.
  change ("url=" +:+ encodeURIComponent s)
    with ("url" +:+ String "=" (encodeURIComponent s)).
  rewrite cut_app_found by reflexivity.
  rewrite percentDecode_encode. reflexivity.
Qed.

(** C4. For every string [u], reserved characters or not, the [url]
    parameter read back from the path [wrap u], percent-decoded, is [u]
    itself. *)
Theorem wrap_roundtrip (u : string) : queryParam "url" (wrap u) = Some u.
Proof.
  unfold queryParam.
  rewrite queryOf_wrap.
  apply lookupField_url.
Qed.

(** ** Objects *)

Lemma get_set_eq k v o : Obj.get k (Obj.set k v o) = Some v.
Proof.
  induction o as [|[k' v'] o IH]; simpl.
  - rewrite String.eqb_refl. reflexivity.
  - destruct (String.eqb k' k) eqn:E; simpl.
    + rewrite String.eqb_refl. reflexivity.
    + rewrite E. exact IH.
Qed.

Lemma get_set_ne k k' v o : k <> k' -> Obj.get k (Obj.set k' v o) = Obj.get k o.
Proof.
  intros Hne. induction o as [|[k1 v1] o IH]; simpl.
  - destruct (String.eqb_spec k' k); congruence.
  - destruct (String.eqb_spec k1 k'); simpl.
    + subst k1. destruct (String.eqb_spec k' k); congruence.
    + rewrite IH. reflexivity.
Qed.

Lemma get_app k o1 o2 :
  Obj.get k (o1 ++ o2) = match Obj.get k o1 with Some v => Some v | None => Obj.get k o2 end.
Proof.
  induction o1 as [|[k1 v1] o1 IH]; simpl; [reflexivity|].
  destruct (String.eqb k1 k); [reflexivity|exact IH].
Qed.

Lemma set_absent k v o : Obj.get k o = None -> Obj.set k v o = o ++ [(k, v)].
Proof.
  induction o as [|[k1 v1] o IH]; simpl; [reflexivity|].
  destruct (String.eqb k1 k); [discriminate|]. intros E. rewrite (IH E). reflexivity.
Qed.

Lemma get_none_of_keys (P : string -> bool) k o :
  P k = true -> existsb P (Obj.names o) = false -> Obj.get k o = None.
Proof.
  intros Hk. induction o as [|[k1 v1] o IH]; simpl; [reflexivity|].
  intros [H1 H2]%orb_false_elim. destruct (String.eqb_spec k1 k); [congruence|auto].
Qed.

Lemma keys_set (P : string -> bool) k v o :
  existsb P (Obj.names (Obj.set k v o)) = existsb P (Obj.names o) || P k.
Proof.
  induction o as [|[k1 v1] o IH]; simpl.
  - apply orb_comm.
  - destruct (String.eqb_spec k1 k); simpl.
    + subst k1. destruct (P k), (existsb P (Obj.names o)); reflexivity.
    + rewrite IH. apply orb_assoc.
Qed.

Lemma insertByIndex_perm n kv l :
  Permutation (Obj.insertByIndex n kv l) ((n, kv) :: l).
Proof.
  induction l as [|[m kv'] l IH]; cbn [Obj.insertByIndex]; [reflexivity|].
  destruct (n <=? m)%N; [reflexivity|].
  rewrite IH. apply perm_swap.
Qed.

(** The listing of an object is its properties, in another order. *)
Lemma entries_perm o : Permutation (Obj.entries o) o.
Proof.
  unfold Obj.entries, Obj.named.
  induction o as [|kv o IH]; cbn [Obj.indexed List.filter]; [reflexivity|].
  destruct (Obj.arrayIndex (fst kv)) as [n|].
  - rewrite (Permutation_map snd (insertByIndex_perm n kv (Obj.indexed o))).
    cbn [map snd app]. apply perm_skip. exact IH.
  - rewrite <- Permutation_middle. apply perm_skip. exact IH.
Qed.

Lemma keys_perm o : Permutation (Obj.keys o) (Obj.names o).
Proof. unfold Obj.keys, Obj.names. apply Permutation_map. apply entries_perm. Qed.

Lemma existsb_perm {A} (P : A -> bool) (l l' : list A) :
  Permutation l l' -> existsb P l = existsb P l'.
Proof.
  induction 1 as [|x l l' _ IH|x y l|l l' l'' _ IH1 _ IH2]; cbn [existsb].
  - reflexivity.
  - rewrite IH. reflexivity.
  - destruct (P x), (P y); reflexivity.
  - rewrite IH1. exact IH2.
Qed.

Lemma existsb_keys (P : string -> bool) o :
  existsb P (Obj.keys o) = existsb P (Obj.names o).
Proof. apply existsb_perm. apply keys_perm. Qed.

Lemma assign_set k v o : k <> "__proto__" -> Obj.assign k v o = Obj.set k v o.
Proof. intros Hk. unfold Obj.assign. destruct (String.eqb_spec k "__proto__"); congruence. Qed.

Lemma existsb_reverse {A} (P : A -> bool) (l : list A) :
  existsb P (rev l) = existsb P l.
Proof.
  induction l as [|x l IH]; [reflexivity|].
  cbn [rev existsb]. rewrite existsb_app, IH. cbn [existsb].
  rewrite orb_false_r. apply orb_comm.
Qed.

(** ** The header filter *)

(** The three tests of the callback are the header policy, and the
    assignment stores every name but one. *)
Lemma filterStep_lost out key value :
  filterStep out (key, value) = if lost key then out else Obj.set key value out.
Proof.
  unfold filterStep, lost, dropped, droppedNames, hopByHop, has, Obj.assign.
  cbn [existsb].
  repeat (destruct (String.eqb (Str.toLowerCase key) _); [reflexivity|]).
  destruct (String.eqb key "__proto__"); reflexivity.
Qed.

Lemma contentType_kept k : isContentType k = true -> dropped k = false.
Proof.
  unfold isContentType, dropped. intros E%String.eqb_eq. rewrite E. reflexivity.
Qed.

Lemma contentType_stored k : isContentType k = true -> lost k = false.
Proof.
  intros C. unfold lost. rewrite (contentType_kept k C).
  destruct (String.eqb_spec k "__proto__") as [->|_]; [discriminate C|reflexivity].
Qed.

Lemma lost_dropped k : lost k = false -> dropped k = false.
Proof. unfold lost. intros [D _]%orb_false_elim. exact D. Qed.

Lemma fold_filterStep_get hs : forall out k,
  Obj.get k (fold_left filterStep hs out) =
  if lost k then Obj.get k out
  else match latest k hs with Some v => Some v | None => Obj.get k out end.
Proof.
  unfold latest.
  induction hs as [|[key value] hs IH]; intros out k.
  - simpl. destruct (lost k); reflexivity.
  - cbn [fold_left rev]. rewrite IH, filterStep_lost, get_app. cbn [Obj.get].
    destruct (lost k) eqn:Dk.
    + destruct (lost key) eqn:Dkey; [reflexivity|].
      apply get_set_ne. intros ->. congruence.
    + destruct (Obj.get k (rev hs)); [reflexivity|].
      destruct (String.eqb_spec key k) as [->|Hne].
      * rewrite Dk. apply get_set_eq.
      * destruct (lost key); [reflexivity|]. apply get_set_ne. congruence.
Qed.

Lemma fold_filterStep_contentType hs : forall out,
  existsb isContentType (Obj.names (fold_left filterStep hs out))
  = existsb isContentType (Obj.names out) || existsb isContentType (map fst hs).
Proof.
  induction hs as [|[key value] hs IH]; intros out.
  - simpl. rewrite orb_false_r. reflexivity.
  - cbn [fold_left map fst existsb]. rewrite IH, filterStep_lost.
    destruct (lost key) eqn:D.
    + destruct (isContentType key) eqn:C; [|reflexivity].
      apply contentType_stored in C. congruence.
    + rewrite keys_set, orb_assoc. reflexivity.
Qed.

Lemma passThrough_contentType hs :
  existsb isContentType (Obj.names (passThrough hs)) = existsb isContentType (map fst hs).
Proof. unfold passThrough. rewrite fold_filterStep_contentType. reflexivity. Qed.

(** The filter, with the test on the listed keys read on the input. *)
Lemma filterResponseHeaders_cases hs :
  filterResponseHeaders hs
  = if existsb isContentType (map fst hs) then passThrough hs
    else Obj.set "Content-Type" "text/plain; charset=utf-8" (passThrough hs).
Proof.
  unfold filterResponseHeaders. rewrite existsb_keys, passThrough_contentType.
  destruct (existsb isContentType (map fst hs)); reflexivity.
Qed.

(** C1, as the code has it.  For every header sequence and every name: a
    name in the header policy, in any letter case, is absent from the
    filter's output, and so is the name [__proto__], which is not in the
    policy; any other name of the input has its input value there,
    unchanged; and the output has nothing else but the synthesized
    content type.  The last two parts show the loss: an upstream header
    [__proto__: x] is not in the output, whatever comes before it. *)
Theorem filter_lookup (hs : Headers) (k : string) :
  Obj.get k (filterResponseHeaders hs)
  = (if lost k then None
     else match latest k hs with
          | Some v => Some v
          | None =>
              if String.eqb k "Content-Type" && negb (existsb isContentType (map fst hs))
              then Some "text/plain; charset=utf-8"
              else None
          end)
  /\ dropped "__proto__" = false
  /\ Obj.get "__proto__" (filterResponseHeaders (hs ++ [("__proto__", "x")])) = None
  /\ filterResponseHeaders [("__proto__", "x"); ("content-type", "text/html")]
     = [("content-type", "text/html")].
Proof.
  assert (G : forall hs k,
             Obj.get k (filterResponseHeaders hs)
             = if lost k then None
               else match latest k hs with
                    | Some v => Some v
                    | None =>
                        if String.eqb k "Content-Type"
                           && negb (existsb isContentType (map fst hs))
                        then Some "text/plain; charset=utf-8"
                        else None
                    end).
  { clear hs k. intros hs k. rewrite filterResponseHeaders_cases.
    destruct (existsb isContentType (map fst hs)) eqn:E; cbn [negb].
    - unfold passThrough. rewrite fold_filterStep_get, andb_false_r. cbn [Obj.get].
      destruct (lost k), (latest k hs); reflexivity.
    - rewrite andb_true_r. destruct (String.eqb_spec k "Content-Type") as [->|Hne].
      + rewrite get_set_eq.
        assert (L : latest "Content-Type" hs = None).
        { unfold latest. apply (get_none_of_keys isContentType); [reflexivity|].
          unfold Obj.names. rewrite map_rev, existsb_reverse. exact E. }
        rewrite L. reflexivity.
      + rewrite get_set_ne by exact Hne.
        unfold passThrough. rewrite fold_filterStep_get. cbn [Obj.get].
        destruct (lost k), (latest k hs); reflexivity. }
  split; [apply G|]. split; [reflexivity|].
  split; [rewrite G; reflexivity|reflexivity].
Qed.

(** C3. When no surviving name is a content type in any letter case, the
    output is the surviving headers followed by the one synthesized entry
    [Content-Type: text/plain; charset=utf-8], its only content type;
    when a content type survives (which is when the input has one), the
    output is the surviving headers and nothing is synthesized. *)
Theorem content_type_fallback (hs : Headers) :
  existsb isContentType (Obj.keys (passThrough hs)) = existsb isContentType (map fst hs)
  /\ if existsb isContentType (Obj.keys (passThrough hs))
     then filterResponseHeaders hs = passThrough hs
     else filterResponseHeaders hs = passThrough hs ++ [plainText]
          /\ List.filter (fun kv => isContentType (fst kv)) (filterResponseHeaders hs)
             = [plainText].
Proof.
  rewrite existsb_keys.
  split; [apply passThrough_contentType|].
  unfold filterResponseHeaders. rewrite existsb_keys.
  destruct (existsb isContentType (Obj.names (passThrough hs))) eqn:E; cbn [negb];
    [reflexivity|].
  rewrite assign_set by discriminate.
  rewrite set_absent by (apply (get_none_of_keys isContentType); [reflexivity|exact E]).
  split; [reflexivity|].
  rewrite List.filter_app. cbn.
  replace (List.filter (fun kv => isContentType (fst kv)) (passThrough hs)) with (@nil (string * string));
    [reflexivity|].
  symmetry. revert E. unfold Obj.names.
  induction (passThrough hs) as [|[k1 v1] o IH]; simpl; [reflexivity|].
  intros [H1 H2]%orb_false_elim. rewrite H1. auto.
Qed.

(** ** Trees *)


Lemma in_flat_map_nodes x (l : list node) :
  In x (flat_map nodes l) <-> exists c, In c l /\ In x (nodes c).
Proof. apply in_flat_map. Qed.

(** Every element outside style elements is carried to its image. *)
Lemma pass_nodes F : pass F ->
  forall n x, In x (nodes n) -> In (F x) (nodes (F n)).
Proof.
  intros (_ & _ & HF) n. induction n as [s|s|name a cs IH] using node_induction;
    intros x Hx; try contradiction.
  destruct (HF name a cs) as (a' & cs' & E & Hcs).
  cbn [nodes] in Hx. destruct Hx as [<-|Hx].
  - rewrite E. left. reflexivity.
  - rewrite E. cbn [nodes]. right.
    destruct (String.eqb name "style") eqn:Hs; [contradiction|].
    destruct (Hcs eq_refl) as (pre & ->).
    rewrite flat_map_app. apply in_or_app. right.
    apply in_flat_map_nodes in Hx as (c & Hc & Hx).
    apply in_flat_map_nodes. exists (F c). split; [apply in_map; exact Hc|].
    rewrite List.Forall_forall in IH. apply (IH c Hc x Hx).
Qed.

Lemma pass_compose F G : pass F -> pass G -> pass (fun n => G (F n)).
Proof.
  intros (FT & FC & FE) (GT & GC & GE). repeat split.
  - intros s. rewrite FT. apply GT.
  - intros s. rewrite FC. apply GC.
  - intros name a cs. destruct (FE name a cs) as (a1 & cs1 & E1 & H1).
    destruct (GE name a1 cs1) as (a2 & cs2 & E2 & H2).
    exists a2, cs2. rewrite E1, E2. split; [reflexivity|].
    intros Hs. destruct (H1 Hs) as (p1 & ->). destruct (H2 Hs) as (p2 & ->).
    exists (p2 ++ map G p1). rewrite map_app, map_map, app_assoc. reflexivity.
Qed.

Lemma pass_each tag f : pass (each tag f).
Proof.
  repeat split; intros name a cs. eexists _, _. split; [reflexivity|].
  intros _. exists []. reflexivity.
Qed.

Lemma pass_eachStyle g : pass (eachStyle g).
Proof.
  repeat split; intros name a cs. cbn [eachStyle].
  destruct (String.eqb name "style"); eexists _, _; (split; [reflexivity|]).
  - discriminate.
  - intros _. exists []. reflexivity.
Qed.

Lemma pass_prepend tag ns : pass (prepend tag ns).
Proof.
  repeat split; intros name a cs. eexists _, _. split; [reflexivity|].
  intros _. eexists. reflexivity.
Qed.

(** One pass of the attribute loop keeps the elements in place. *)
Lemma each_nodes tag f n : nodes (each tag f n) = map (each tag f) (nodes n).
Proof.
  induction n as [s|s|name a cs IH] using node_induction; try reflexivity.
  cbn [each nodes map]. f_equal.
  destruct (String.eqb name "style"); [reflexivity|].
  induction cs as [|c cs IHcs]; [reflexivity|].
  inversion IH as [|c' cs' Pc Pcs]; subst.
  cbn [map flat_map]. rewrite map_app, Pc, (IHcs Pcs). reflexivity.
Qed.

Lemma each_nodes_doc tag f d :
  flat_map nodes (map (each tag f) d) = map (each tag f) (flat_map nodes d).
Proof.
  induction d as [|n d IH]; [reflexivity|].
  cbn [map flat_map]. rewrite map_app, each_nodes, IH. reflexivity.
Qed.

Lemma fold_each_map (f : string -> string -> Obj.t -> Obj.t) l : forall d,
  fold_left (fun d '(tg, attr) => map (each tg (f tg attr)) d) l d
  = map (fun n => fold_left (fun n '(tg, attr) => each tg (f tg attr) n) l n) d.
Proof.
  induction l as [|[tg attr] l IH]; intros d; cbn [fold_left].
  - rewrite map_id. reflexivity.
  - rewrite IH, map_map. reflexivity.
Qed.

Section RewriterFacts.
  Context `{Platform}.

Lemma rewriteDoc_map baseUrl doc :
  rewriteDoc baseUrl doc = map (rewriteNode baseUrl) doc.
Proof.
  unfold rewriteDoc, injectToolbar, rewriteAttrs, rewriteNode.
  rewrite (fold_each_map (fun tg attr => rewriteAttr tg attr baseUrl)), !map_map.
  reflexivity.
Qed.

Lemma fold_each_element baseUrl tag l : forall a cs,
  fold_left (fun n '(tg, attr) => each tg (rewriteAttr tg attr baseUrl) n) l
    (Element tag a cs)
  = Element tag
      (fold_left
         (fun a '(tg, attr) =>
            if String.eqb tag tg then rewriteAttr tg attr baseUrl a else a) l a)
      (map (fun n => fold_left
              (fun n '(tg, attr) => each tg (rewriteAttr tg attr baseUrl) n) l n) cs).
Proof.
  induction l as [|[tg attr] l IH]; intros a cs; cbn [fold_left].
  - rewrite map_id. reflexivity.
  - cbn [each]. rewrite IH, map_map. reflexivity.
Qed.

Lemma pass_loop baseUrl l :
  pass (fun n => fold_left
          (fun n '(tg, attr) => each tg (rewriteAttr tg attr baseUrl) n) l n).
Proof.
  induction l as [|[tg attr] l IH]; cbn [fold_left].
  - repeat split; intros name a cs. eexists _, _. split; [reflexivity|].
    intros _. exists []. rewrite map_id. reflexivity.
  - apply (pass_compose (each tg (rewriteAttr tg attr baseUrl)) _ (pass_each _ _) IH).
Qed.

Lemma pass_rewriteNode baseUrl : pass (rewriteNode baseUrl).
Proof.
  unfold rewriteNode.
  apply (pass_compose (fun n => eachStyle _ (fold_left _ attrTargets n)) (prepend _ _));
    [|apply pass_prepend].
  apply (pass_compose (fun n => fold_left _ attrTargets n) (eachStyle _));
    [apply pass_loop|apply pass_eachStyle].
Qed.

(** After the attribute loop the i-th element of the document, in
    document order, is the i-th element of the input with the attributes
    the loop gives it. *)
Lemma rewriteAttrs_nth baseUrl doc i tag a cs :
  nth_error (flat_map nodes doc) i = Some (Element tag a cs) ->
  exists cs1,
    nth_error (flat_map nodes (rewriteAttrs baseUrl doc)) i
    = Some (Element tag (applyRules baseUrl tag a) cs1).
Proof.
  unfold rewriteAttrs, applyRules. generalize attrTargets as l. intros l.
  revert doc a cs. induction l as [|[tg attr] l IH]; intros doc a cs Hi; cbn [fold_left].
  - exists cs. exact Hi.
  - apply (IH _ (if String.eqb tag tg then rewriteAttr tg attr baseUrl a else a)
             (map (each tg (rewriteAttr tg attr baseUrl)) cs)).
    rewrite each_nodes_doc. exact (map_nth_error (each tg (rewriteAttr tg attr baseUrl)) _ _ Hi).
Qed.

(** An element of the document comes out under its name, with the
    attributes the loop gives it, and below a body element the parsed
    toolbar comes first. *)
Lemma rewriteNode_element baseUrl tag a cs :
  exists cs',
    rewriteNode baseUrl (Element tag a cs)
    = Element tag (applyRules baseUrl tag a)
        ((if String.eqb tag "body" then parseFragment None (toolbar baseUrl) else [])
         ++ cs').
Proof.
  unfold rewriteNode, applyRules. rewrite fold_each_element. cbn [eachStyle].
  destruct (String.eqb tag "style"); cbn [prepend]; eexists; reflexivity.
Qed.

Lemma rewriteDoc_element baseUrl doc tag a cs :
  In (Element tag a cs) (flat_map nodes doc) ->
  exists cs',
    In (Element tag (applyRules baseUrl tag a)
          ((if String.eqb tag "body" then parseFragment None (toolbar baseUrl) else [])
           ++ cs'))
       (flat_map nodes (rewriteDoc baseUrl doc)).
Proof.
  intros (c & Hc & Hx)%in_flat_map_nodes.
  destruct (rewriteNode_element baseUrl tag a cs) as (cs' & E).
  exists cs'. rewrite <- E, rewriteDoc_map.
  apply in_flat_map_nodes. exists (rewriteNode baseUrl c).
  split; [apply in_map; exact Hc|].
  apply (pass_nodes _ (pass_rewriteNode baseUrl)). exact Hx.
Qed.

(** The tags of [attrTargets] are distinct: an element meets one rule. *)
Lemma applyRules_rule baseUrl tag attr a :
  In (tag, attr) attrTargets -> applyRules baseUrl tag a = rewriteAttr tag attr baseUrl a.
Proof.
  unfold attrTargets. cbn [In]. intros Hin.
  repeat (destruct Hin as [Hin|Hin]; [injection Hin as <- <-; reflexivity|]).
  contradiction.
Qed.

Lemma rewriteAttr_untouched baseUrl tag attr a :
  untouched attr a = true -> rewriteAttr tag attr baseUrl a = a.
Proof.
  unfold untouched, rewriteAttr, skipped.
  destruct (Obj.get attr a) as [[|c v]|]; [reflexivity| |reflexivity].
  cbn [String.eqb orb]. intros E.
  destruct (Str.startsWith "#" (String c v)); [reflexivity|].
  cbn [orb] in E. rewrite E. reflexivity.
Qed.

Lemma rewriteAttr_rewritten baseUrl tag attr a :
  untouched attr a = false ->
  exists v, Obj.get attr a = Some v /\
    rewriteAttr tag attr baseUrl a
    = Obj.set attr (wrap (toAbsolute v baseUrl))
        (if String.eqb tag "form" then Obj.set "method" "GET" a else a).
Proof.
  unfold untouched, rewriteAttr, skipped.
  destruct (Obj.get attr a) as [[|c v]|]; [discriminate| |discriminate].
  cbn [String.eqb orb]. intros E. exists (String c v). split; [reflexivity|].
  destruct (Str.startsWith "#" (String c v)); [discriminate|].
  cbn [orb] in E. rewrite E. reflexivity.
Qed.

End RewriterFacts.

(** ** The attribute rules *)

Section Rules.
  Context `{Platform}.

(** C5. The i-th element of the document, when it meets a rule (tag,
    attribute), is after the attribute loop the i-th element still, and
    it is in the rewriter's output, with these attributes: the ones it
    had, when the attribute is absent, empty, a fragment reference or a
    mailto:, tel: or javascript: reference in any letter case; otherwise
    the attribute is the wrapped resolved value, whose [url] parameter
    reads back as the resolved value. *)
Theorem rule_attribute (baseUrl : string) (doc : list node) (tag attr : string)
    (a : Obj.t) (cs : list node) (i : nat) :
  In (tag, attr) attrTargets ->
  nth_error (flat_map nodes doc) i = Some (Element tag a cs) ->
  exists a',
    (exists cs1,
        nth_error (flat_map nodes (rewriteAttrs baseUrl doc)) i = Some (Element tag a' cs1)) /\
    (exists cs', In (Element tag a' cs') (flat_map nodes (rewriteDoc baseUrl doc))) /\
    if untouched attr a then a' = a
    else exists v,
        Obj.get attr a = Some v /\
        Obj.get attr a' = Some (wrap (toAbsolute v baseUrl)) /\
        queryParam "url" (wrap (toAbsolute v baseUrl)) = Some (toAbsolute v baseUrl).
Proof.
  intros Hrule Hi.
  destruct (rewriteAttrs_nth baseUrl doc i tag a cs Hi) as (cs1 & Hloop).
  destruct (rewriteDoc_element baseUrl doc tag a cs (nth_error_In _ _ Hi)) as (cs' & Hout).
  exists (applyRules baseUrl tag a).
  split; [exists cs1; exact Hloop|]. split; [eexists; exact Hout|].
  rewrite (applyRules_rule _ _ _ _ Hrule).
  destruct (untouched attr a) eqn:U.
  - apply rewriteAttr_untouched. exact U.
  - destruct (rewriteAttr_rewritten baseUrl tag attr a U) as (v & Hv & ->).
    exists v. split; [exact Hv|]. split; [apply get_set_eq|].
    unfold queryParam. rewrite queryOf_wrap. apply lookupField_url.
Qed.

(** C6. A form of the document with [action="/submit"] (and, say,
    [method="POST"]) comes out with [method] equal to [GET] and with an
    [action] that is the wrapped form of [/submit] resolved against the
    base, whose [url] parameter reads back as that resolved URL. *)
Theorem form_method_forced (baseUrl : string) (doc : list node) (a : Obj.t)
    (cs : list node) :
  In (Element "form" a cs) (flat_map nodes doc) ->
  Obj.get "action" a = Some "/submit" ->
  exists a' cs',
    In (Element "form" a' cs') (flat_map nodes (rewriteDoc baseUrl doc)) /\
    Obj.get "method" a' = Some "GET" /\
    Obj.get "action" a' = Some (wrap (toAbsolute "/submit" baseUrl)) /\
    queryParam "url" (wrap (toAbsolute "/submit" baseUrl))
    = Some (toAbsolute "/submit" baseUrl).
Proof.
  intros Hin Hact.
  destruct (rewriteDoc_element baseUrl doc "form" a cs Hin) as (cs' & Hout).
  eexists _, _. split; [exact Hout|].
  rewrite (applyRules_rule baseUrl "form" "action") by (unfold attrTargets; cbn; tauto).
  assert (U : untouched "action" a = false) by (unfold untouched; rewrite Hact; reflexivity).
  destruct (rewriteAttr_rewritten baseUrl "form" "action" a U) as (v & Hv & ->).
  rewrite Hact in Hv. injection Hv as <-. cbn [String.eqb Ascii.eqb Bool.eqb].
  split; [rewrite get_set_ne by discriminate; apply get_set_eq|].
  split; [apply get_set_eq|].
  unfold queryParam. rewrite queryOf_wrap. apply lookupField_url.
Qed.

(** C10. A form of the document whose [action] is absent, empty, a
    fragment reference or a mailto:, tel: or javascript: reference comes
    out with all its attributes as they were, [method] among them: the
    method is forced only together with the rewriting of the action. *)
Theorem form_method_kept (baseUrl : string) (doc : list node) (a : Obj.t)
    (cs : list node) :
  In (Element "form" a cs) (flat_map nodes doc) ->
  untouched "action" a = true ->
  exists a' cs',
    In (Element "form" a' cs') (flat_map nodes (rewriteDoc baseUrl doc)) /\
    a' = a /\ Obj.get "method" a' = Obj.get "method" a.
Proof.
  intros Hin U.
  destruct (rewriteDoc_element baseUrl doc "form" a cs Hin) as (cs' & Hout).
  eexists _, _. split; [exact Hout|].
  rewrite (applyRules_rule baseUrl "form" "action") by (unfold attrTargets; cbn; tauto).
  rewrite (rewriteAttr_untouched _ _ _ _ U). split; reflexivity.
Qed.

(** C8, as the code has it.  When no URL can be made of a reference and
    the base, [toAbsolute] returns the reference itself; the attribute
    holding it is then overwritten with the wrapped reference, and every
    element of the document still gets what the loop gives it. *)
Theorem unresolvable_reference (baseUrl : string) (doc : list node) (tag attr : string)
    (a : Obj.t) (cs : list node) (v : string) :
  newURL v (Some baseUrl) = None ->
  In (tag, attr) attrTargets ->
  In (Element tag a cs) (flat_map nodes doc) ->
  Obj.get attr a = Some v ->
  untouched attr a = false ->
  toAbsolute v baseUrl = v /\
  (exists a' cs',
      In (Element tag a' cs') (flat_map nodes (rewriteDoc baseUrl doc)) /\
      Obj.get attr a' = Some (wrap v)) /\
  forall tag2 a2 cs2,
    In (Element tag2 a2 cs2) (flat_map nodes doc) ->
    exists cs2',
      In (Element tag2 (applyRules baseUrl tag2 a2) cs2')
         (flat_map nodes (rewriteDoc baseUrl doc)).
Proof.
  intros Hfail Hrule Hin Hv U.
  assert (Habs : toAbsolute v baseUrl = v) by (unfold toAbsolute; rewrite Hfail; reflexivity).
  split; [exact Habs|]. split.
  - destruct (rewriteDoc_element baseUrl doc tag a cs Hin) as (cs' & Hout).
    eexists _, _. split; [exact Hout|].
    rewrite (applyRules_rule _ _ _ _ Hrule).
    destruct (rewriteAttr_rewritten baseUrl tag attr a U) as (v' & Hv' & ->).
    rewrite Hv in Hv'. injection Hv' as <-. rewrite Habs. apply get_set_eq.
  - intros tag2 a2 cs2 Hin2.
    destruct (rewriteDoc_element baseUrl doc tag2 a2 cs2 Hin2) as (cs2' & Hout).
    eexists. exact Hout.
Qed.

End Rules.

(** ** The style pass *)

Lemma length_append s t : String.length (s +:+ t) = String.length s + String.length t.
Proof.
  induction s as [|c s IH]; [reflexivity|].
  change (String c s +:+ t) with (String c (s +:+ t)). cbn [String.length].
  rewrite IH. reflexivity.
Qed.

Lemma append_assoc s t u : (s +:+ t) +:+ u = s +:+ t +:+ u.
Proof.
  induction s as [|c s IH]; [reflexivity|].
  change (String c s +:+ t) with (String c (s +:+ t)).
  change (String c (s +:+ t) +:+ u) with (String c ((s +:+ t) +:+ u)).
  rewrite IH. reflexivity.
Qed.

(** The characters of a match are passed over, then the scan resumes. *)
Lemma replaceUrls_skip f m : forall s,
  replaceUrls f (String.length m) (m +:+ s) = replaceUrls f 0 s.
Proof.
  induction m as [|c m IH]; intros s; [reflexivity|].
  change (String c m +:+ s) with (String c (m +:+ s)).
  cbn [String.length replaceUrls]. apply IH.
Qed.

Lemma matchUrl_found p1 post :
  p1 <> EmptyString -> noneIs ")" p1 = true ->
  matchUrl ("url(" +:+ p1 +:+ ")" +:+ post) = Some (p1, post).
Proof.
  intros Hne Hp. unfold matchUrl.
  change (Str.startsWith "url(" ("url(" +:+ p1 +:+ ")" +:+ post)) with true.
  change (Str.drop 4 ("url(" +:+ p1 +:+ ")" +:+ post)) with (p1 +:+ String ")" post).
  cbv iota. rewrite (cut_app_found ")" p1 post Hp).
  destruct p1; [contradiction|reflexivity].
Qed.

Lemma replaceUrls_match f p1 post :
  p1 <> EmptyString -> noneIs ")" p1 = true ->
  replaceUrls f 0 ("url(" +:+ p1 +:+ ")" +:+ post)
  = f ("url(" +:+ p1 +:+ ")") p1 +:+ replaceUrls f 0 post.
Proof.
  intros Hne Hp.
  change ("url(" +:+ p1 +:+ ")" +:+ post) with (String "u" ("rl(" +:+ p1 +:+ ")" +:+ post)).
  cbn [replaceUrls].
  change (String "u" ("rl(" +:+ p1 +:+ ")" +:+ post)) with ("url(" +:+ p1 +:+ ")" +:+ post).
  rewrite (matchUrl_found p1 post Hne Hp). f_equal.
  replace (4 + String.length p1) with (String.length ("rl(" +:+ p1 +:+ ")")).
  - rewrite <- (replaceUrls_skip f ("rl(" +:+ p1 +:+ ")") post).
    rewrite !append_assoc. reflexivity.
  - rewrite !length_append. cbn [String.length]. lia.
Qed.

Lemma replaceUrls_literal f pre rest :
  literal pre rest = true ->
  replaceUrls f 0 (pre +:+ rest) = pre +:+ replaceUrls f 0 rest.
Proof.
  induction pre as [|c pre IH]; [reflexivity|].
  cbn [literal]. change (String c pre +:+ rest) with (String c (pre +:+ rest)).
  destruct (matchUrl (String c (pre +:+ rest))) eqn:M; [discriminate|].
  intros L. cbn [replaceUrls]. rewrite M, (IH L). reflexivity.
Qed.

(** *** What [trim] and the quote pattern make of the captured content *)

Lemma visible_code c : visible c = true -> 33 <= Str.code c <= 126.
Proof.
  unfold visible, Str.between. intros [H1 H2]%andb_true_iff.
  apply Nat.leb_le in H1. apply Nat.leb_le in H2. lia.
Qed.

Lemma hidden_code c : Str.code c < 33 \/ 126 < Str.code c -> visible c = false.
Proof.
  intros Hc. destruct (visible c) eqn:V; [|reflexivity].
  apply visible_code in V. lia.
Qed.

Lemma isSpace1_code a : isSpace1 a = true -> Str.code a < 33.
Proof.
  unfold isSpace1, Str.between.
  intros [[_ H]%andb_true_iff|H]%orb_true_iff.
  - apply Nat.leb_le in H. lia.
  - apply Nat.eqb_eq in H. lia.
Qed.

Lemma isSpace2_code a b : isSpace2 a b = true -> 126 < Str.code a /\ 126 < Str.code b.
Proof.
  unfold isSpace2. intros [Ha Hb]%andb_true_iff.
  apply Nat.eqb_eq in Ha. apply Nat.eqb_eq in Hb. lia.
Qed.

Lemma isSpace3_code a b c :
  isSpace3 a b c = true -> 126 < Str.code a /\ 126 < Str.code b /\ 126 < Str.code c.
Proof.
  unfold isSpace3. intros Hs.
  repeat match type of Hs with
         | (_ || _ = true) => apply orb_true_iff in Hs as [Hs|Hs]
         end;
    repeat match goal with
           | Hc : _ && _ = true |- _ => apply andb_true_iff in Hc as [? ?]
           | Hc : _ || _ = true |- _ => apply orb_true_iff in Hc as [Hc|Hc]
           | Hc : Nat.eqb _ _ = true |- _ => apply Nat.eqb_eq in Hc
           | Hc : (_ <=? _)%nat = true |- _ => apply Nat.leb_le in Hc
           end; lia.
Qed.

Lemma trimStart_unit u s : In u whiteUnits -> trimStart (u +:+ s) = trimStart s.
Proof.
  unfold whiteUnits. cbn [map In].
  intros Hu. repeat (destruct Hu as [<-|Hu]; [reflexivity|]). contradiction.
Qed.

Lemma trimStart_white w s : white w -> trimStart (w +:+ s) = trimStart s.
Proof.
  induction 1 as [|u w Hu _ IH]; [reflexivity|].
  rewrite append_assoc, (trimStart_unit _ _ Hu). exact IH.
Qed.

Lemma trimStart_visible c s : visible c = true -> trimStart (String c s) = String c s.
Proof.
  intros V%visible_code. cbn [trimStart].
  destruct (isSpace1 c) eqn:S1; [apply isSpace1_code in S1; lia|].
  destruct s as [|b s]; [reflexivity|].
  destruct (isSpace2 c b) eqn:S2; [apply isSpace2_code in S2; lia|].
  destruct s as [|d s]; [reflexivity|].
  destruct (isSpace3 c b d) eqn:S3; [apply isSpace3_code in S3; lia|reflexivity].
Qed.

(** Text that [trimStart] consumes whole has no visible character. *)
Lemma blank_hidden n : forall s,
  String.length s <= n -> trimStart s = EmptyString ->
  Str.allChars (fun c => negb (visible c)) s = true.
Proof.
  induction n as [|n IH]; intros s Hn.
  - destruct s; [reflexivity|cbn [String.length] in Hn; lia].
  - destruct s as [|a s1]; [reflexivity|]. cbn [String.length] in Hn.
    cbn [trimStart Str.allChars].
    destruct (isSpace1 a) eqn:S1.
    + intros Hs. rewrite (hidden_code a) by (apply isSpace1_code in S1; lia).
      apply IH; [lia|exact Hs].
    + destruct s1 as [|b s2]; [discriminate|]. cbn [String.length] in Hn.
      destruct (isSpace2 a b) eqn:S2.
      * intros Hs. apply isSpace2_code in S2.
        cbn [Str.allChars].
        rewrite (hidden_code a), (hidden_code b) by lia.
        apply IH; [lia|exact Hs].
      * destruct s2 as [|c s3]; [discriminate|]. cbn [String.length] in Hn.
        destruct (isSpace3 a b c) eqn:S3; [|discriminate].
        intros Hs. apply isSpace3_code in S3.
        cbn [Str.allChars].
        rewrite (hidden_code a), (hidden_code b), (hidden_code c) by lia.
        apply IH; [lia|exact Hs].
Qed.

Lemma lastVisible_shown body w :
  body <> EmptyString -> lastVisible body = true ->
  Str.allChars (fun c => negb (visible c)) (body +:+ w) = false.
Proof.
  induction body as [|a body IH]; [contradiction|]. intros _ Hl.
  change (String a body +:+ w) with (String a (body +:+ w)). cbn [Str.allChars].
  destruct body as [|b body].
  - cbn [lastVisible] in Hl. rewrite Hl. reflexivity.
  - rewrite IH; [apply andb_false_r|discriminate|exact Hl].
Qed.

Lemma white_blank w : white w -> isBlank w = true.
Proof.
  intros Hw. unfold isBlank.
  replace w with (w +:+ EmptyString)
    by (clear Hw; induction w as [|c w IH]; [reflexivity|];
        change (String c w +:+ EmptyString) with (String c (w +:+ EmptyString));
        rewrite IH; reflexivity).
  rewrite (trimStart_white _ _ Hw). reflexivity.
Qed.

Lemma trimEnd_white body w :
  white w -> lastVisible body = true -> trimEnd (body +:+ w) = body.
Proof.
  intros Hw. induction body as [|a body IH]; intros Hl.
  - change (EmptyString +:+ w) with w. destruct w as [|c w]; [reflexivity|].
    cbn [trimEnd]. rewrite (white_blank _ Hw). reflexivity.
  - change (String a body +:+ w) with (String a (body +:+ w)). cbn [trimEnd].
    assert (Hb : isBlank (String a (body +:+ w)) = false).
    { unfold isBlank. destruct (trimStart (String a (body +:+ w))) eqn:T; [|reflexivity].
      apply (blank_hidden _ _ (le_n _)) in T.
      change (String a (body +:+ w)) with (String a body +:+ w) in T.
      rewrite lastVisible_shown in T; [discriminate|discriminate|exact Hl]. }
    rewrite Hb. f_equal. apply IH.
    destruct body; [reflexivity|exact Hl].
Qed.

(** [trim] removes the white space around a text with visible ends. *)
Lemma trim_padded w1 body w2 :
  white w1 -> white w2 -> firstVisible body = true -> lastVisible body = true ->
  trim (w1 +:+ body +:+ w2) = body.
Proof.
  intros H1 H2 Hf Hl. unfold trim. rewrite (trimStart_white _ _ H1).
  destruct body as [|c body].
  - change (EmptyString +:+ w2) with w2.
    pose proof (white_blank _ H2) as Hb. unfold isBlank in Hb.
    destruct (trimStart w2); [reflexivity|discriminate].
  - change (String c body +:+ w2) with (String c (body +:+ w2)).
    rewrite (trimStart_visible _ _ Hf).
    change (String c (body +:+ w2)) with (String c body +:+ w2).
    apply trimEnd_white; assumption.
Qed.

Lemma dropFinalQuote_snoc s q :
  isQuote q = true -> dropFinalQuote (s +:+ String q EmptyString) = s.
Proof.
  intros Hq. induction s as [|c s IH].
  - change (dropFinalQuote (String q EmptyString) = EmptyString).
    cbn [dropFinalQuote]. rewrite Hq. reflexivity.
  - change (String c s +:+ String q EmptyString) with (String c (s +:+ String q EmptyString)).
    cbn [dropFinalQuote]. rewrite IH.
    destruct (s +:+ String q EmptyString) eqn:E; [|reflexivity].
    destruct s; discriminate E.
Qed.

Lemma dropFinalQuote_none s : endsWithQuote s = false -> dropFinalQuote s = s.
Proof.
  induction s as [|c s IH]; [reflexivity|].
  cbn [endsWithQuote dropFinalQuote]. destruct s as [|c' s'].
  - intros ->. reflexivity.
  - intros Hs. rewrite (IH Hs). reflexivity.
Qed.

(** The quote pattern removes the quote a text starts with and the
    quote it ends with. *)
Lemma stripQuotes_shaped body content : shaped body content -> stripQuotes body = content.
Proof.
  intros [c H1 H2|q1 q2 c H1 H2|q1 c H1 H2|q2 c H1 H2]; unfold stripQuotes.
  - destruct c as [|a c]; [reflexivity|].
    cbn [startsWithQuote] in H1. rewrite H1. apply dropFinalQuote_none. exact H2.
  - rewrite H1. apply dropFinalQuote_snoc. exact H2.
  - rewrite H1. apply dropFinalQuote_none. exact H2.
  - destruct c as [|a c].
    + change (EmptyString +:+ String q2 EmptyString) with (String q2 EmptyString) in H1.
      cbn [startsWithQuote] in H1. congruence.
    + change (String a c +:+ String q2 EmptyString)
        with (String a (c +:+ String q2 EmptyString)) in *.
      cbn [startsWithQuote] in H1. cbv beta iota. rewrite H1.
      change (String a (c +:+ String q2 EmptyString))
        with (String a c +:+ String q2 EmptyString).
      apply dropFinalQuote_snoc. exact H2.
Qed.

Section Style.
  Context `{Platform}.

(** C7, as the code has it.  In the text of a style block, an occurrence
    [url(p1)] whose content [p1] runs up to the first closing
    parenthesis, met by the left-to-right scan after literal text [pre]:
    the content is first trimmed of the white space around it and then
    stripped of the quote it starts with and of the quote it ends with;
    when what is left starts with [data:] the occurrence stays as it is,
    otherwise it becomes [url(] wrap(resolve(content, base)) [)]; the
    scan goes on behind it.  The second part says what is left: for a
    captured text [w1 body w2] with white space [w1], [w2] around a
    [body] with visible ends, it is [body] without its quotes. *)
Theorem style_url_rewritten (baseUrl : string) (a : Obj.t) (cs : list node)
    (pre p1 post : string) :
  render cs = pre +:+ "url(" +:+ p1 +:+ ")" +:+ post ->
  literal pre ("url(" +:+ p1 +:+ ")" +:+ post) = true ->
  p1 <> EmptyString ->
  noneIs ")" p1 = true ->
  let raw := stripQuotes (trim p1) in
  eachStyle (rewriteStyle baseUrl) (Element "style" a cs)
  = Element "style" a
      (parseFragment (Some "style")
         (pre
          +:+ (if Str.startsWith "data:" raw then "url(" +:+ p1 +:+ ")"
               else "url(" +:+ wrap (toAbsolute raw baseUrl) +:+ ")")
          +:+ rewriteCss baseUrl post))
  /\ (forall w1 body w2 content,
         p1 = w1 +:+ body +:+ w2 ->
         white w1 -> white w2 ->
         firstVisible body = true -> lastVisible body = true ->
         shaped body content ->
         raw = content).
Proof.
  intros Hcss Hpre Hne Hp raw. split.
  - cbn [eachStyle String.eqb Ascii.eqb Bool.eqb]. unfold rewriteStyle, rewriteCss.
    rewrite Hcss, (replaceUrls_literal _ _ _ Hpre), (replaceUrls_match _ _ _ Hne Hp).
    reflexivity.
  - intros w1 body w2 content -> H1 H2 Hf Hl Hs. unfold raw.
    rewrite (trim_padded _ _ _ H1 H2 Hf Hl). apply stripQuotes_shaped. exact Hs.
Qed.

End Style.

(** ** The toolbar *)

Lemma prepend_absent tag ns n : hasTag tag n = false -> prepend tag ns n = n.
Proof.
  induction n as [s|s|name a cs IH] using node_induction; try reflexivity.
  cbn [hasTag prepend]. intros [Hn Hcs]%orb_false_elim. rewrite Hn. cbn [app].
  f_equal. induction cs as [|c cs IHcs]; [reflexivity|].
  cbn [existsb] in Hcs. apply orb_false_elim in Hcs as [Hc Hcs].
  inversion IH as [|c' cs' Pc Pcs]; subst. cbn [map].
  rewrite (Pc Hc), (IHcs Pcs Hcs). reflexivity.
Qed.

Lemma hasTag_each tag tg f n : hasTag tag (each tg f n) = hasTag tag n.
Proof.
  induction n as [s|s|name a cs IH] using node_induction; try reflexivity.
  cbn [each hasTag]. f_equal.
  induction cs as [|c cs IHcs]; [reflexivity|].
  inversion IH as [|c' cs' Pc Pcs]; subst. cbn [map existsb].
  rewrite Pc, (IHcs Pcs). reflexivity.
Qed.

Lemma hasTag_eachStyle tag g n :
  (forall cs, existsb (hasTag tag) (g cs) = false) ->
  hasTag tag n = false -> hasTag tag (eachStyle g n) = false.
Proof.
  intros Hg. induction n as [s|s|name a cs IH] using node_induction; try (intros; reflexivity).
  cbn [hasTag eachStyle]. intros [Hn Hcs]%orb_false_elim.
  destruct (String.eqb name "style"); cbn [hasTag]; rewrite Hn; cbn [orb]; [apply Hg|].
  induction cs as [|c cs IHcs]; [reflexivity|].
  cbn [existsb] in Hcs. apply orb_false_elim in Hcs as [Hc Hcs].
  inversion IH as [|c' cs' Pc Pcs]; subst. cbn [map existsb].
  rewrite (Pc Hc), (IHcs Pcs Hcs). reflexivity.
Qed.

Lemma existsb_map_false {A} (P : A -> bool) (F : A -> A) (l : list A) :
  (forall x, P x = false -> P (F x) = false) ->
  existsb P l = false -> existsb P (map F l) = false.
Proof.
  intros HF. induction l as [|x l IH]; [reflexivity|].
  cbn [existsb map]. intros [Hx Hl]%orb_false_elim. rewrite (HF x Hx), (IH Hl). reflexivity.
Qed.

Section Toolbar.
  Context `{Platform}.

Lemma hasTag_rewriteAttrs tag baseUrl doc :
  existsb (hasTag tag) doc = false ->
  existsb (hasTag tag) (rewriteAttrs baseUrl doc) = false.
Proof.
  unfold rewriteAttrs. generalize attrTargets as l. intros l. revert doc.
  induction l as [|[tg attr] l IH]; intros doc Hdoc; cbn [fold_left]; [exact Hdoc|].
  apply IH. apply existsb_map_false; [|exact Hdoc].
  intros n Hn. rewrite hasTag_each. exact Hn.
Qed.

(** C9. Every body element of the document (outside style blocks) comes
    out with the parsed toolbar as its first children; and when the
    document has no body element at all (the text of a style block
    parsing to none either), the injection changes nothing: the result
    is the document as the first two passes left it. *)
Theorem toolbar_injection (baseUrl : string) (doc : list node) :
  (forall a cs,
      In (Element "body" a cs) (flat_map nodes doc) ->
      exists cs',
        In (Element "body" a (parseFragment None (toolbar baseUrl) ++ cs'))
           (flat_map nodes (rewriteDoc baseUrl doc)))
  /\ ((forall css, existsb (hasTag "body") (parseFragment (Some "style") css) = false) ->
      existsb (hasTag "body") doc = false ->
      rewriteDoc baseUrl doc
      = map (eachStyle (rewriteStyle baseUrl)) (rewriteAttrs baseUrl doc)).
Proof.
  split.
  - intros a cs Hin.
    destruct (rewriteDoc_element baseUrl doc "body" a cs Hin) as (cs' & Hout).
    exists cs'. exact Hout.
  - intros Hstyle Hdoc. unfold rewriteDoc, injectToolbar.
    apply hasTag_rewriteAttrs with (baseUrl := baseUrl) in Hdoc.
    induction (rewriteAttrs baseUrl doc) as [|n d IH]; [reflexivity|].
    cbn [existsb] in Hdoc. apply orb_false_elim in Hdoc as [Hn Hd].
    cbn [map]. rewrite (IH Hd). f_equal. apply prepend_absent.
    apply hasTag_eachStyle; [|exact Hn]. intros cs. apply Hstyle.
Qed.

End Toolbar.

(** ** The relay handler *)

Lemma headersGet_app name o1 o2 :
  headersGet name (o1 ++ o2)
  = match headersGet name o1 with Some v => Some v | None => headersGet name o2 end.
Proof.
  induction o1 as [|[k v] o1 IH]; cbn [app headersGet]; [reflexivity|].
  destruct (String.eqb _ _); [reflexivity|exact IH].
Qed.

(** After the copy, a name reads as the last header of the object that
    matches it in any letter case, and as before when there is none. *)
Lemma copyHeaders_get name o : forall res,
  getHeader name (copyHeaders o res)
  = match headersGet name (rev (Obj.entries o)) with
    | Some v => Some v
    | None => getHeader name res
    end.
Proof.
  unfold copyHeaders. generalize (Obj.entries o) as l. clear o. intros o.
  induction o as [|[k v] o IH]; intros res; cbn [fold_left rev]; [reflexivity|].
  rewrite IH, headersGet_app. destruct (headersGet name (rev o)); [reflexivity|].
  cbn [headersGet]. unfold getHeader, setHeader. cbn [outHeaders].
  destruct (String.eqb_spec (Str.toLowerCase k) (Str.toLowerCase name)) as [->|Hne].
  - apply lookup_insert_eq.
  - apply lookup_insert_ne. exact Hne.
Qed.

Lemma headersGet_some name o :
  existsb (fun k => String.eqb (Str.toLowerCase k) (Str.toLowerCase name)) (map fst o) = true ->
  exists k v, In (k, v) o /\ Str.toLowerCase k = Str.toLowerCase name
              /\ headersGet name o = Some v.
Proof.
  induction o as [|[k v] o IH]; cbn [map fst existsb headersGet]; [discriminate|].
  destruct (String.eqb_spec (Str.toLowerCase k) (Str.toLowerCase name)) as [E|_].
  - intros _. exists k, v. split; [left; reflexivity|]. split; [exact E|reflexivity].
  - cbn [orb]. intros Ho. destruct (IH Ho) as (k' & v' & Hin & E & G).
    exists k', v'. split; [right; exact Hin|]. split; [exact E|exact G].
Qed.

Lemma in_set kv k v o : In kv (Obj.set k v o) -> kv = (k, v) \/ In kv o.
Proof.
  induction o as [|[k1 v1] o IH]; cbn [Obj.set].
  - intros [<-|[]]. left. reflexivity.
  - destruct (String.eqb k1 k).
    + intros [<-|Hin]; [left; reflexivity|right; right; exact Hin].
    + intros [<-|Hin]; [right; left; reflexivity|].
      destruct (IH Hin) as [->|Hin']; [left; reflexivity|right; right; exact Hin'].
Qed.

Lemma in_fold_filterStep kv hs : forall out,
  In kv (fold_left filterStep hs out) -> In kv out \/ In kv hs.
Proof.
  induction hs as [|[key value] hs IH]; intros out; cbn [fold_left]; [tauto|].
  intros [Hin|Hin]%IH; [|right; right; exact Hin].
  rewrite filterStep_lost in Hin. destruct (lost key); [left; exact Hin|].
  apply in_set in Hin as [->|Hin]; [right; left; reflexivity|left; exact Hin].
Qed.

Section Relay.
  Context `{Platform}.

(** For every upstream response read as HTML, the content type of the
    relayed response is the value of an upstream content-type header. *)
Lemma relay_html_upstream_type (url : URL) (code : nat) (hs : Headers)
    (payload : string) :
  Str.includes "text/html" (orElse (headersGet "content-type" hs) EmptyString) = true ->
  exists k v,
    In (k, v) hs /\ isContentType k = true /\
    getHeader "Content-Type" (relay url (mkResponse code hs payload)) = Some v.
Proof.
  intros Hhtml. unfold relay. cbn [status headers body]. rewrite Hhtml. cbn [negb].
  assert (E : existsb isContentType (map fst hs) = true).
  { destruct (existsb isContentType (map fst hs)) eqn:E; [reflexivity|].
    assert (G : headersGet "content-type" hs = None).
    { clear Hhtml. induction hs as [|[k v] l IH]; [reflexivity|].
      cbn [map fst existsb] in E. apply orb_false_elim in E as [E1 E2].
      cbn [headersGet]. unfold isContentType in E1.
      change (Str.toLowerCase "content-type") with "content-type".
      rewrite E1. apply IH. exact E2. }
    rewrite G in Hhtml. discriminate Hhtml. }
  unfold send. unfold getHeader at 1. cbn [outHeaders].
  change (outHeaders ?r !! Str.toLowerCase "Content-Type") with (getHeader "Content-Type" r).
  rewrite copyHeaders_get.
  rewrite filterResponseHeaders_cases, E.
  destruct (headersGet_some "Content-Type" (rev (Obj.entries (passThrough hs))))
    as (k & v & Hin & Hk & G).
  { rewrite map_rev, existsb_reverse.
    change (existsb isContentType (Obj.keys (passThrough hs)) = true).
    rewrite existsb_keys, passThrough_contentType. exact E. }
  exists k, v. rewrite G. split; [|split; [|reflexivity]].
  - apply in_rev in Hin. apply (Permutation_in _ (entries_perm _)) in Hin.
    unfold passThrough in Hin.
    apply in_fold_filterStep in Hin as [[]|Hin]. exact Hin.
  - unfold isContentType. rewrite Hk. reflexivity.
Qed.

End Relay.

(** Without a target the handler answers 400 before anything else. *)
Lemma handler_missing_target `{Platform} reqHeader fetch :
  handler None reqHeader fetch = send 400 "Missing ?url= parameter" res0
  /\ handler (Some EmptyString) reqHeader fetch = send 400 "Missing ?url= parameter" res0.
Proof. split; reflexivity. Qed.

(** C2, at an upstream response declaring another charset.  The handler
    does set [text/html; charset=utf-8], but the surviving upstream
    content type is copied over it next: on every platform the relayed
    response carries the upstream value, and so does the whole handler
    run on the small platform. *)
Theorem relay_html_content_type :
  (forall (P : Platform) (url : URL) (code : nat) (payload : string),
      getHeader "Content-Type"
        (@relay P url
           (mkResponse code [("content-type", "text/html; charset=iso-8859-1")] payload))
      = Some "text/html; charset=iso-8859-1")
  /\ (let res :=
        @handler samplePlatform (Some "https://example.com/") (fun _ => None)
          (fun _ _ =>
             Fetched (mkResponse 200 [("content-type", "text/html; charset=iso-8859-1")]
                        "<p>hi</p>")) in
      statusCode res = 200
      /\ getHeader "Content-Type" res = Some "text/html; charset=iso-8859-1").
Proof.
  split.
  - intros P url code payload. vm_compute. reflexivity.
  - vm_compute. split; reflexivity.
Qed.

(** * The examples of the design, run on the small platform *)

Example wrap_reserved :
  wrap "https://example.com/a b?x=1&y=2#z"
  = "/api/proxy?url=https%3A%2F%2Fexample.com%2Fa%20b%3Fx%3D1%26y%3D2%23z".
Proof. reflexivity. Qed.

Example policy_any_case :
  dropped "Content-Security-Policy" = true /\ dropped "SET-COOKIE" = true
  /\ dropped "Keep-Alive" = true /\ dropped "Content-Type" = false.
Proof. repeat split. Qed.

Example filter_example :
  filterResponseHeaders
    [("Content-Security-Policy", "default-src 'self'"); ("SET-COOKIE", "a=b");
     ("etag", "abc"); ("Connection", "close")]
  = [("etag", "abc"); ("Content-Type", "text/plain; charset=utf-8")].
Proof. reflexivity. Qed.

Example anchor_example :
  @rewriteDoc samplePlatform "https://example.com/page" anchorDoc
  = [Element "a" [("href", "/api/proxy?url=https%3A%2F%2Fexample.com%2Fx")] [Text "go"]]
  /\ queryParam "url" "/api/proxy?url=https%3A%2F%2Fexample.com%2Fx"
     = Some "https://example.com/x".
Proof. split; reflexivity. Qed.

Example mailto_example :
  @rewriteDoc samplePlatform "https://example.com/page" mailDoc = mailDoc.
Proof. reflexivity. Qed.

Example form_example :
  @rewriteDoc samplePlatform "https://example.com/page" formDoc
  = [Element "form"
       [("action", "/api/proxy?url=https%3A%2F%2Fexample.com%2Fsubmit"); ("method", "GET")]
       []].
Proof. reflexivity. Qed.

Example css_example :
  @rewriteCss samplePlatform "https://example.com/" ".a{background:url(/img.png)}"
  = ".a{background:url(/api/proxy?url=https%3A%2F%2Fexample.com%2Fimg.png)}".
Proof. reflexivity. Qed.

Example style_example :
  eachStyle (@rewriteStyle samplePlatform "https://example.com/") (Element "style" [] styleText)
  = Element "style" []
      [Text ".a{background:url(/api/proxy?url=https%3A%2F%2Fexample.com%2Fimg.png)}"].
Proof. reflexivity. Qed.

Example css_quotes_and_data :
  @rewriteCss samplePlatform "https://example.com/"
    "a{x:url( '/i.png' )} b{y:url(data:image/png;base64,AA)} c{z:url()}"
  = "a{x:url(/api/proxy?url=https%3A%2F%2Fexample.com%2Fi.png)} b{y:url(data:image/png;base64,AA)} c{z:url()}".
Proof. reflexivity. Qed.

Example keys_indices_first :
  filterResponseHeaders [("10", "a"); ("b", "c"); ("2", "d")]
  = [("10", "a"); ("b", "c"); ("2", "d"); ("Content-Type", "text/plain; charset=utf-8")]
  /\ Obj.keys (filterResponseHeaders [("10", "a"); ("b", "c"); ("2", "d")])
     = ["2"; "10"; "b"; "Content-Type"].
Proof. split; reflexivity. Qed.

Example other_scheme_refused :
  @handler samplePlatform (Some "ftp://example.com/pub") (fun _ => None)
    (fun _ _ => Fetched (mkResponse 200 [] "ok"))
  = send 400 "Only http/https supported" res0.
Proof. reflexivity. Qed.

(** * Instances of the statements *)

Lemma rule_attribute_witness :
  In ("a", "href") attrTargets /\
  nth_error (flat_map nodes anchorDoc) 0 = Some (Element "a" [("href", "/x")] [Text "go"]) /\
  exists a',
    (exists cs1,
        nth_error
          (flat_map nodes (@rewriteAttrs samplePlatform "https://example.com/page" anchorDoc)) 0
        = Some (Element "a" a' cs1)) /\
    (exists cs',
        In (Element "a" a' cs')
           (flat_map nodes (@rewriteDoc samplePlatform "https://example.com/page" anchorDoc))) /\
    if untouched "href" [("href", "/x")] then a' = [("href", "/x")]
    else exists v,
        Obj.get "href" [("href", "/x")] = Some v /\
        Obj.get "href" a' = Some (wrap (@toAbsolute samplePlatform v "https://example.com/page")) /\
        queryParam "url" (wrap (@toAbsolute samplePlatform v "https://example.com/page"))
        = Some (@toAbsolute samplePlatform v "https://example.com/page").
Proof.
  assert (H1 : In ("a", "href") attrTargets) by (left; reflexivity).
  split; [exact H1|]. split; [reflexivity|].
  exact (@rule_attribute samplePlatform "https://example.com/page" anchorDoc
           "a" "href" [("href", "/x")] [Text "go"] 0 H1 eq_refl).
Defined.

Lemma form_method_forced_witness :
  In (Element "form" [("action", "/submit"); ("method", "POST")] []) (flat_map nodes formDoc) /\
  Obj.get "action" [("action", "/submit"); ("method", "POST")] = Some "/submit" /\
  exists a' cs',
    In (Element "form" a' cs')
       (flat_map nodes (@rewriteDoc samplePlatform "https://example.com/page" formDoc)) /\
    Obj.get "method" a' = Some "GET" /\
    Obj.get "action" a'
    = Some (wrap (@toAbsolute samplePlatform "/submit" "https://example.com/page")) /\
    queryParam "url" (wrap (@toAbsolute samplePlatform "/submit" "https://example.com/page"))
    = Some (@toAbsolute samplePlatform "/submit" "https://example.com/page").
Proof.
  assert (H1 : In (Element "form" [("action", "/submit"); ("method", "POST")] [])
                 (flat_map nodes formDoc)) by (left; reflexivity).
  split; [exact H1|]. split; [reflexivity|].
  exact (@form_method_forced samplePlatform "https://example.com/page" formDoc
           [("action", "/submit"); ("method", "POST")] [] H1 eq_refl).
Defined.

Lemma form_method_kept_witness :
  In (Element "form" [("method", "POST")] []) (flat_map nodes bareFormDoc) /\
  untouched "action" [("method", "POST")] = true /\
  exists a' cs',
    In (Element "form" a' cs')
       (flat_map nodes (@rewriteDoc samplePlatform "https://example.com/page" bareFormDoc)) /\
    a' = [("method", "POST")] /\
    Obj.get "method" a' = Obj.get "method" [("method", "POST")].
Proof.
  assert (H1 : In (Element "form" [("method", "POST")] []) (flat_map nodes bareFormDoc))
    by (left; reflexivity).
  split; [exact H1|]. split; [reflexivity|].
  exact (@form_method_kept samplePlatform "https://example.com/page" bareFormDoc
           [("method", "POST")] [] H1 eq_refl).
Defined.

(** C8 as it is worded fails: the reference of the first element cannot
    be resolved, and it does not stay as it was; it is wrapped. *)
Lemma unresolvable_reference_not_kept :
  @newURL samplePlatform "http://[" (Some "https://example.com/") = None /\
  @rewriteDoc samplePlatform "https://example.com/" brokenDoc
  = [Element "a" [("href", "/api/proxy?url=http%3A%2F%2F%5B")] [];
     Element "img" [("src", "/api/proxy?url=https%3A%2F%2Fexample.com%2Flogo.png")] []] /\
  ~ (forall a cs,
        In (Element "a" a cs)
           (flat_map nodes (@rewriteDoc samplePlatform "https://example.com/" brokenDoc)) ->
        Obj.get "href" a = Some "http://[").
Proof.
  split; [reflexivity|]. split; [reflexivity|].
  intros Hkept.
  specialize (Hkept [("href", "/api/proxy?url=http%3A%2F%2F%5B")] []).
  discriminate Hkept. left. reflexivity.
Qed.

Lemma unresolvable_reference_witness :
  @newURL samplePlatform "http://[" (Some "https://example.com/") = None /\
  In ("a", "href") attrTargets /\
  In (Element "a" [("href", "http://[")] []) (flat_map nodes brokenDoc) /\
  Obj.get "href" [("href", "http://[")] = Some "http://[" /\
  untouched "href" [("href", "http://[")] = false /\
  @toAbsolute samplePlatform "http://[" "https://example.com/" = "http://[" /\
  (exists a' cs',
      In (Element "a" a' cs')
         (flat_map nodes (@rewriteDoc samplePlatform "https://example.com/" brokenDoc)) /\
      Obj.get "href" a' = Some (wrap "http://[")) /\
  forall tag2 a2 cs2,
    In (Element tag2 a2 cs2) (flat_map nodes brokenDoc) ->
    exists cs2',
      In (Element tag2 (@applyRules samplePlatform "https://example.com/" tag2 a2) cs2')
         (flat_map nodes (@rewriteDoc samplePlatform "https://example.com/" brokenDoc)).
Proof.
  assert (H1 : In ("a", "href") attrTargets) by (left; reflexivity).
  assert (H2 : In (Element "a" [("href", "http://[")] []) (flat_map nodes brokenDoc))
    by (left; reflexivity).
  split; [reflexivity|]. split; [exact H1|]. split; [exact H2|].
  split; [reflexivity|]. split; [reflexivity|].
  exact (@unresolvable_reference samplePlatform "https://example.com/" brokenDoc
           "a" "href" [("href", "http://[")] [] "http://[" eq_refl H1 H2 eq_refl eq_refl).
Defined.

(** C7 as it is worded fails: behind a blank the content [ data:x]
    does not begin with [data:], with or without its quotes stripped,
    and the occurrence stays as it is all the same; it is not replaced
    by a wrapped reference, whatever the reference resolves to. *)
Lemma style_data_after_space :
  @render samplePlatform paddedDataText = ".a{background:" +:+ "url(" +:+ " data:x" +:+ ")" +:+ "}" /\
  Str.startsWith "data:" " data:x" = false /\
  Str.startsWith "data:" (stripQuotes " data:x") = false /\
  eachStyle (@rewriteStyle samplePlatform "https://example.com/")
    (Element "style" [] paddedDataText)
  = Element "style" [] paddedDataText /\
  forall u,
    eachStyle (@rewriteStyle samplePlatform "https://example.com/")
      (Element "style" [] paddedDataText)
    <> Element "style" [] [Text (".a{background:" +:+ "url(" +:+ wrap u +:+ ")" +:+ "}")].
Proof.
  split; [reflexivity|]. split; [reflexivity|]. split; [reflexivity|].
  split; [reflexivity|].
  intros u E.
  change (eachStyle (@rewriteStyle samplePlatform "https://example.com/")
            (Element "style" [] paddedDataText))
    with (Element "style" [] paddedDataText) in E.
  unfold paddedDataText, wrap in E.
  change (".a{background:" +:+ "url(" +:+ ("/api/proxy?url=" +:+ encodeURIComponent u)
          +:+ ")" +:+ "}")
    with (".a{background:url(/" +:+ "api/proxy?url=" +:+ encodeURIComponent u +:+ ")" +:+ "}") in E.
  change (".a{background:url(/" +:+ "api/proxy?url=" +:+ encodeURIComponent u +:+ ")" +:+ "}")
    with (String "." (String "a" (String "{" (String "b" (String "a" (String "c" (String "k"
          (String "g" (String "r" (String "o" (String "u" (String "n" (String "d" (String ":"
          (String "u" (String "r" (String "l" (String "(" (String "/"
            ("api/proxy?url=" +:+ encodeURIComponent u +:+ ")" +:+ "}")))))))))))))))))))) in E.
  discriminate E.
Qed.

Lemma style_url_rewritten_witness :
  @render samplePlatform quotedStyleText
  = ".a{background:" +:+ "url(" +:+ " '/img.png' " +:+ ")" +:+ "}" /\
  literal ".a{background:" ("url(" +:+ " '/img.png' " +:+ ")" +:+ "}") = true /\
  " '/img.png' " <> EmptyString /\
  noneIs ")" " '/img.png' " = true /\
  eachStyle (@rewriteStyle samplePlatform "https://example.com/")
    (Element "style" [] quotedStyleText)
  = Element "style" []
      [Text ".a{background:url(/api/proxy?url=https%3A%2F%2Fexample.com%2Fimg.png)}"] /\
  (white " " /\ firstVisible "'/img.png'" = true /\ lastVisible "'/img.png'" = true /\
   shaped "'/img.png'" "/img.png") /\
  stripQuotes (trim " '/img.png' ") = "/img.png".
Proof.
  assert (H3 : " '/img.png' " <> EmptyString) by discriminate.
  assert (Hw : white " ").
  { apply (white_cons " " EmptyString); [|constructor].
    right; right; right; right; right; left; reflexivity. }
  assert (Hs : shaped "'/img.png'" "/img.png")
    by (apply (shaped_quoted "'" "'" "/img.png"); reflexivity).
  split; [reflexivity|]. split; [reflexivity|]. split; [exact H3|]. split; [reflexivity|].
  destruct (@style_url_rewritten samplePlatform "https://example.com/" [] quotedStyleText
              ".a{background:" " '/img.png' " "}" eq_refl eq_refl H3 eq_refl) as [HA HB].
  split; [exact HA|].
  split; [split; [exact Hw|]; split; [reflexivity|]; split; [reflexivity|exact Hs]|].
  exact (HB " " "'/img.png'" " " "/img.png" eq_refl Hw Hw eq_refl eq_refl Hs).
Defined.

Lemma toolbar_injection_witness :
  (In (Element "body" [] [Text "hi"]) (flat_map nodes (@load samplePlatform "hi")) /\
   exists cs',
     In (Element "body" []
           (@parseFragment samplePlatform None (toolbar "https://example.com/") ++ cs'))
        (flat_map nodes
           (@rewriteDoc samplePlatform "https://example.com/" (@load samplePlatform "hi"))))
  /\ ((forall css,
          existsb (hasTag "body") (@parseFragment samplePlatform (Some "style") css) = false) /\
      existsb (hasTag "body") noBodyDoc = false /\
      @rewriteDoc samplePlatform "https://example.com/" noBodyDoc
      = map (eachStyle (@rewriteStyle samplePlatform "https://example.com/"))
          (@rewriteAttrs samplePlatform "https://example.com/" noBodyDoc)).
Proof.
  assert (H1 : In (Element "body" [] [Text "hi"]) (flat_map nodes (@load samplePlatform "hi")))
    by (right; right; left; reflexivity).
  assert (H2 : forall css,
             existsb (hasTag "body") (@parseFragment samplePlatform (Some "style") css) = false)
    by (intros css; reflexivity).
  split.
  - split; [exact H1|].
    exact (proj1 (@toolbar_injection samplePlatform "https://example.com/"
                    (@load samplePlatform "hi")) [] [Text "hi"] H1).
  - split; [exact H2|]. split; [reflexivity|].
    exact (proj2 (@toolbar_injection samplePlatform "https://example.com/" noBodyDoc)
             H2 eq_refl).
Defined.

(** * Further properties *)

(** ** The link wrapper *)

(** X1. The wrapped path carries one parameter and no other: whatever
    the wrapped text holds, reading any name but [url] finds nothing. *)
Theorem wrap_single_parameter (name u : string) :
  queryParam name (wrap u) = if String.eqb "url" name then Some u else None.
Proof.
  unfold queryParam. rewrite queryOf_wrap.
  rewrite (splitOn_absent "&")
    by (rewrite allChars_app; apply (encoded_free_of "&" u); reflexivity).
  cbn [lookupField]. unfold field.
  change ("url=" +:+ encodeURIComponent u)
    with ("url" +:+ String "=" (encodeURIComponent u)).
  rewrite cut_app_found by reflexivity.
  rewrite percentDecode_encode.
  change (percentDecode "url") with "url".
  destruct (String.eqb "url" name); reflexivity.
Qed.

(** X2. Two texts with the same wrapped path are the same text. *)
Theorem wrap_injective (u v : string) : wrap u = wrap v -> u = v.
Proof.
  unfold wrap. intros E. apply String.app_inj in E.
  rewrite <- (percentDecode_encode u), <- (percentDecode_encode v), E. reflexivity.
Qed.

(** ** The header filter, further *)

Lemma in_keys_set x k v o : In x (Obj.names (Obj.set k v o)) -> x = k \/ In x (Obj.names o).
Proof.
  unfold Obj.names. intros ((k', v') & <- & Hin)%in_map_iff.
  apply in_set in Hin as [E|Hin].
  - injection E as -> _. left. reflexivity.
  - right. apply (in_map fst) in Hin. exact Hin.
Qed.

Lemma nodup_keys_set k v o :
  List.NoDup (Obj.names o) -> List.NoDup (Obj.names (Obj.set k v o)).
Proof.
  induction o as [|[k1 v1] o IH]; cbn [Obj.set Obj.names map fst]; intros Ho.
  - constructor; [intros []|constructor].
  - apply List.NoDup_cons_iff in Ho as [H1 Ho].
    destruct (String.eqb_spec k1 k) as [->|Hne]; cbn [map fst].
    + apply List.NoDup_cons_iff. split; assumption.
    + apply List.NoDup_cons_iff. split; [|apply IH; exact Ho].
      intros [->|Hin]%in_keys_set; [congruence|exact (H1 Hin)].
Qed.

Lemma passThrough_keys hs : forall out,
  List.NoDup (Obj.names out) ->
  List.Forall (fun k => dropped k = false) (Obj.names out) ->
  List.NoDup (Obj.names (fold_left filterStep hs out))
  /\ List.Forall (fun k => dropped k = false) (Obj.names (fold_left filterStep hs out)).
Proof.
  induction hs as [|[key value] hs IH]; intros out Hnd Hkept; cbn [fold_left];
    [split; assumption|].
  rewrite filterStep_lost. destruct (lost key) eqn:D; [apply IH; assumption|].
  apply IH; [apply nodup_keys_set; exact Hnd|].
  apply List.Forall_forall. intros x [->|Hin]%in_keys_set; [exact (lost_dropped _ D)|].
  rewrite List.Forall_forall in Hkept. apply Hkept. exact Hin.
Qed.

Lemma filter_keys (hs : Headers) :
  List.NoDup (Obj.names (filterResponseHeaders hs))
  /\ List.Forall (fun k => dropped k = false) (Obj.names (filterResponseHeaders hs)).
Proof.
  destruct (passThrough_keys hs [] (List.NoDup_nil _) (List.Forall_nil _)) as [Hnd Hkept].
  fold (passThrough hs) in Hnd, Hkept.
  rewrite filterResponseHeaders_cases.
  destruct (existsb isContentType (map fst hs)); [split; assumption|].
  split; [apply nodup_keys_set; exact Hnd|].
  apply List.Forall_forall. intros x [->|Hin]%in_keys_set; [reflexivity|].
  rewrite List.Forall_forall in Hkept. apply Hkept. exact Hin.
Qed.

Lemma filter_has_contentType (hs : Headers) :
  existsb isContentType (Obj.names (filterResponseHeaders hs)) = true.
Proof.
  rewrite filterResponseHeaders_cases.
  destruct (existsb isContentType (map fst hs)) eqn:E.
  - rewrite passThrough_contentType. exact E.
  - rewrite keys_set. apply orb_true_r.
Qed.

(** X3. What the filter returns, for every input: no name twice, no
    name of the header policy, and a content type. *)
Theorem filter_output_invariant (hs : Headers) :
  List.NoDup (Obj.keys (filterResponseHeaders hs))
  /\ List.Forall (fun k => dropped k = false) (Obj.keys (filterResponseHeaders hs))
  /\ existsb isContentType (Obj.keys (filterResponseHeaders hs)) = true.
Proof.
  destruct (filter_keys hs) as [Hnd Hkept].
  pose proof (Permutation_sym (keys_perm (filterResponseHeaders hs))) as Hperm.
  split; [exact (Permutation_NoDup Hperm Hnd)|].
  split; [exact (Permutation_Forall Hperm Hkept)|].
  rewrite existsb_keys. apply filter_has_contentType.
Qed.

(** ** The headers of the relayed response *)

Lemma headersGet_none name o :
  (forall k v, In (k, v) o -> Str.toLowerCase k <> Str.toLowerCase name) ->
  headersGet name o = None.
Proof.
  induction o as [|[k v] o IH]; intros Hno; cbn [headersGet]; [reflexivity|].
  destruct (String.eqb_spec (Str.toLowerCase k) (Str.toLowerCase name)) as [E|_].
  - exfalso. apply (Hno k v); [left; reflexivity|exact E].
  - apply IH. intros k' v' Hin. apply (Hno k' v'). right. exact Hin.
Qed.

Lemma headersGet_Some_in name o v :
  headersGet name o = Some v ->
  exists k, In (k, v) o /\ Str.toLowerCase k = Str.toLowerCase name.
Proof.
  induction o as [|[k1 v1] o IH]; cbn [headersGet]; [discriminate|].
  destruct (String.eqb_spec (Str.toLowerCase k1) (Str.toLowerCase name)) as [E|_].
  - intros [= <-]. exists k1. split; [left; reflexivity|exact E].
  - intros (k & Hin & E)%IH. exists k. split; [right; exact Hin|exact E].
Qed.

Lemma dropped_lower k name :
  Str.toLowerCase k = Str.toLowerCase name -> dropped k = dropped name.
Proof. unfold dropped. intros ->. reflexivity. Qed.

(** The response of [relay], header by header: what the copy of the
    filtered headers left, and below it the handler's own content type. *)
Lemma relay_getHeader `{Platform} (url : URL) (up : Response) :
  exists own, forall name,
    getHeader name (relay url up)
    = match headersGet name (rev (Obj.entries (filterResponseHeaders (headers up)))) with
      | Some v => Some v
      | None => getHeader name (setHeader "Content-Type" own res0)
      end.
Proof.
  unfold relay.
  destruct (negb (Str.includes "text/html"
                    (orElse (headersGet "content-type" (headers up)) EmptyString)));
    eexists; intros name; unfold send, getHeader at 1; cbn [outHeaders];
    change (outHeaders ?r !! Str.toLowerCase name) with (getHeader name r);
    apply copyHeaders_get.
Qed.

Lemma own_header_other name own :
  Str.toLowerCase name <> "content-type" ->
  getHeader name (setHeader "Content-Type" own res0) = None.
Proof.
  intros Hne. unfold getHeader, setHeader, res0. cbn [outHeaders].
  rewrite lookup_insert_ne by (intros E; apply Hne; rewrite <- E; reflexivity).
  apply lookup_empty.
Qed.

(** X5. No header of the policy reaches the client, whatever the
    upstream sends and whichever branch relays it. *)
Theorem relay_drops_policy_headers `{Platform} (url : URL) (up : Response) (name : string) :
  dropped name = true -> getHeader name (relay url up) = None.
Proof.
  intros D. destruct (relay_getHeader url up) as (own & Hget). rewrite Hget.
  rewrite headersGet_none.
  - apply own_header_other. intros E. unfold dropped in D. rewrite E in D. discriminate D.
  - intros k v Hin%in_rev E.
    apply (Permutation_in _ (entries_perm _)) in Hin.
    destruct (filter_keys (headers up)) as [_ Hkept].
    rewrite List.Forall_forall in Hkept.
    specialize (Hkept k (in_map fst _ _ Hin)). cbn [fst] in Hkept.
    rewrite (dropped_lower _ _ E) in Hkept. congruence.
Qed.

Lemma headersGet_contentType_none hs :
  headersGet "content-type" hs = None -> existsb isContentType (map fst hs) = false.
Proof.
  induction hs as [|[k v] hs IH]; cbn [headersGet map fst existsb]; [reflexivity|].
  unfold isContentType at 1. change (Str.toLowerCase "content-type") with "content-type".
  destruct (String.eqb (Str.toLowerCase k) "content-type"); [discriminate|exact IH].
Qed.

Lemma in_passThrough kv hs : In kv (passThrough hs) -> In kv hs.
Proof.
  unfold passThrough. intros [[]|Hin]%in_fold_filterStep. exact Hin.
Qed.

(** X6. When the handler hands the response to [send], the content
    type it has set on it is the one of the filtered headers, never the
    one it set first: a value of an upstream content-type header when
    there is one, and [text/plain; charset=utf-8] when there is none
    (the [application/octet-stream] default is overwritten). *)
Theorem relay_content_type_source `{Platform} (url : URL) (up : Response) :
  exists v,
    getHeader "Content-Type" (relay url up) = Some v
    /\ match headersGet "content-type" (headers up) with
       | Some _ => exists k, In (k, v) (headers up) /\ isContentType k = true
       | None => v = "text/plain; charset=utf-8"
       end.
Proof.
  destruct (relay_getHeader url up) as (own & Hget).
  destruct (headersGet_some "Content-Type"
              (rev (Obj.entries (filterResponseHeaders (headers up)))))
    as (k & v & Hin & Hk & G).
  { rewrite map_rev, existsb_reverse.
    change (existsb isContentType (Obj.keys (filterResponseHeaders (headers up))) = true).
    rewrite existsb_keys. apply filter_has_contentType. }
  assert (Ck : isContentType k = true) by (unfold isContentType; rewrite Hk; reflexivity).
  exists v. split; [rewrite Hget, G; reflexivity|].
  apply in_rev in Hin. apply (Permutation_in _ (entries_perm _)) in Hin.
  rewrite filterResponseHeaders_cases in Hin.
  destruct (headersGet "content-type" (headers up)) as [ct|] eqn:Hct.
  - exists k. split; [|exact Ck].
    destruct (existsb isContentType (map fst (headers up))) eqn:E.
    + apply in_passThrough. exact Hin.
    + exfalso. apply headersGet_Some_in in Hct as (k' & Hin' & E').
      apply (in_map fst) in Hin'. cbn [fst] in Hin'.
      assert (C : isContentType k' = true) by (unfold isContentType; rewrite E'; reflexivity).
      assert (T : existsb isContentType (map fst (headers up)) = true)
        by (apply existsb_exists; exists k'; split; assumption).
      congruence.
  - apply headersGet_contentType_none in Hct. rewrite Hct in Hin.
    apply in_set in Hin as [E|Hin]; [injection E as _ ->; reflexivity|].
    exfalso. apply (in_map fst) in Hin. cbn [fst] in Hin.
    assert (T : existsb isContentType (Obj.names (passThrough (headers up))) = true)
      by (apply existsb_exists; exists k; split; assumption).
    rewrite passThrough_contentType in T. congruence.
Qed.

(** ** The handler *)

(** X8. For a request without a target, with a target that is no URL,
    or with a scheme other than http and https, the handler calls
    [send] with status 400 and one of its three messages, and what it
    hands over does not depend on the network or on the request headers:
    it is decided before any outbound call. *)
Theorem handler_rejects_before_fetch `{Platform} (queryUrl : option string)
    (h1 h2 : string -> option string) (f1 f2 : string -> Obj.t -> FetchResult) :
  rejected queryUrl = true ->
  handler queryUrl h1 f1 = handler queryUrl h2 f2
  /\ statusCode (handler queryUrl h1 f1) = 400
  /\ In (sent (handler queryUrl h1 f1))
        ["Missing ?url= parameter"; "Invalid URL"; "Only http/https supported"].
Proof.
  unfold rejected, handler.
  destruct (orElse queryUrl EmptyString) as [|c target];
    [intros _; split; [reflexivity|split; [reflexivity|left; reflexivity]]|].
  destruct (newURL (String c target) None) as [url|];
    [|intros _; split; [reflexivity|split; [reflexivity|right; left; reflexivity]]].
  intros ->. split; [reflexivity|split; [reflexivity|right; right; left; reflexivity]].
Qed.

(** X9. The handler uses the network and the request headers in one
    place only: one call, for the text of the parsed target, with the
    three headers user-agent, accept and accept-language.  Two requests
    that agree there get the same answer, whatever their other headers
    (cookies among them). *)
Theorem handler_single_request `{Platform} (queryUrl : option string)
    (h1 h2 : string -> option string) (f1 f2 : string -> Obj.t -> FetchResult) :
  (forall url, newURL (orElse queryUrl EmptyString) None = Some url ->
               f1 (href url) (outbound h1) = f2 (href url) (outbound h2)) ->
  handler queryUrl h1 f1 = handler queryUrl h2 f2.
Proof.
  unfold handler. intros Hcall.
  destruct (orElse queryUrl EmptyString) as [|c target]; [reflexivity|].
  destruct (newURL (String c target) None) as [url|]; [|reflexivity].
  destruct (negb (has ["http:"; "https:"] (protocol url))); [reflexivity|].
  change [("user-agent", orElse (h1 "user-agent") defaultUserAgent);
          ("accept", orElse (h1 "accept") "*/*");
          ("accept-language", orElse (h1 "accept-language") "en-US,en;q=0.9")]
    with (outbound h1).
  change [("user-agent", orElse (h2 "user-agent") defaultUserAgent);
          ("accept", orElse (h2 "accept") "*/*");
          ("accept-language", orElse (h2 "accept-language") "en-US,en;q=0.9")]
    with (outbound h2).
  rewrite (Hcall url eq_refl). reflexivity.
Qed.

(** ** The markup rewriter, further *)

Section RewriterMore.
Context `{Platform}.

Lemma rewriteAttr_get_other baseUrl tg attr a k :
  k <> attr -> (tg = "form" -> k <> "method") ->
  Obj.get k (rewriteAttr tg attr baseUrl a) = Obj.get k a.
Proof.
  intros Hattr Hmethod. destruct (untouched attr a) eqn:U.
  - rewrite (rewriteAttr_untouched _ _ _ _ U). reflexivity.
  - destruct (rewriteAttr_rewritten baseUrl tg attr a U) as (v & _ & ->).
    rewrite get_set_ne by exact Hattr.
    destruct (String.eqb_spec tg "form") as [E|_]; [|reflexivity].
    apply get_set_ne. exact (Hmethod E).
Qed.

Lemma applyRules_get_other baseUrl tag k (l : list (string * string)) : forall a,
  existsb (fun '(tg, attr) => String.eqb tag tg && String.eqb k attr) l = false ->
  String.eqb tag "form" && String.eqb k "method" = false ->
  Obj.get k
    (fold_left
       (fun a '(tg, attr) => if String.eqb tag tg then rewriteAttr tg attr baseUrl a else a)
       l a)
  = Obj.get k a.
Proof.
  induction l as [|[tg attr] l IH]; intros a Hl Hform; cbn [fold_left]; [reflexivity|].
  cbn [existsb] in Hl. apply orb_false_elim in Hl as [Hhead Hl].
  rewrite (IH _ Hl Hform).
  destruct (String.eqb_spec tag tg) as [<-|_]; [|reflexivity].
  cbn [andb] in Hhead. apply String.eqb_neq in Hhead.
  apply rewriteAttr_get_other; [exact Hhead|].
  intros ->. cbn [String.eqb Ascii.eqb Bool.eqb andb] in Hform.
  apply String.eqb_neq. exact Hform.
Qed.

(** X11. The rewriter writes on an element only the attribute of its
    rule and, on a form, [method]: every other attribute of every
    element of the document comes out with the value it had (or absent
    as it was). *)
Theorem other_attributes_kept (baseUrl : string) (doc : list node) (tag k : string)
    (a : Obj.t) (cs : list node) :
  touches tag k = false ->
  In (Element tag a cs) (flat_map nodes doc) ->
  exists a' cs',
    In (Element tag a' cs') (flat_map nodes (rewriteDoc baseUrl doc))
    /\ Obj.get k a' = Obj.get k a.
Proof.
  unfold touches. intros [Hrules Hform]%orb_false_elim Hin.
  destruct (rewriteDoc_element baseUrl doc tag a cs Hin) as (cs' & Hout).
  eexists _, _. split; [exact Hout|].
  apply applyRules_get_other; assumption.
Qed.

(** X12. An element whose tag has no rule comes out with its attribute
    list exactly as it was. *)
Theorem unruled_element_kept (baseUrl : string) (doc : list node) (tag : string)
    (a : Obj.t) (cs : list node) :
  Obj.get tag attrTargets = None ->
  In (Element tag a cs) (flat_map nodes doc) ->
  exists cs', In (Element tag a cs') (flat_map nodes (rewriteDoc baseUrl doc)).
Proof.
  intros Hnone Hin.
  destruct (rewriteDoc_element baseUrl doc tag a cs Hin) as (cs' & Hout).
  eexists. replace a with (applyRules baseUrl tag a) at 1; [exact Hout|].
  unfold applyRules, attrTargets in *. cbn [Obj.get] in Hnone. cbn [fold_left].
  repeat match type of Hnone with
         | (if String.eqb ?t tag then _ else _) = None =>
             rewrite (String.eqb_sym tag t);
             destruct (String.eqb t tag); [discriminate Hnone|]
         end.
  reflexivity.
Qed.

Lemma eraseAttrs_each tag f n : eraseAttrs (each tag f n) = eraseAttrs n.
Proof.
  induction n as [s|s|name a cs IH] using node_induction; try reflexivity.
  cbn [each eraseAttrs]. f_equal. rewrite map_map.
  induction cs as [|c cs IHcs]; [reflexivity|].
  inversion IH as [|c' cs' Pc Pcs]; subst. cbn [map]. rewrite Pc, (IHcs Pcs). reflexivity.
Qed.

(** X13. The attribute loop changes attributes and nothing else: with
    the attributes left aside, the document after the loop is the
    document before it (names, nesting, texts, comments, script
    bodies). *)
Theorem rewriteAttrs_keeps_shape (baseUrl : string) (doc : list node) :
  map eraseAttrs (rewriteAttrs baseUrl doc) = map eraseAttrs doc.
Proof.
  unfold rewriteAttrs. generalize attrTargets as l. intros l. revert doc.
  induction l as [|[tg attr] l IH]; intros doc; cbn [fold_left]; [reflexivity|].
  rewrite IH, map_map. apply map_ext. intros n. apply eraseAttrs_each.
Qed.

Lemma eachStyle_absent g n : hasTag "style" n = false -> eachStyle g n = n.
Proof.
  induction n as [s|s|name a cs IH] using node_induction; try reflexivity.
  cbn [hasTag eachStyle]. intros [Hn Hcs]%orb_false_elim. rewrite Hn.
  f_equal. induction cs as [|c cs IHcs]; [reflexivity|].
  cbn [existsb] in Hcs. apply orb_false_elim in Hcs as [Hc Hcs].
  inversion IH as [|c' cs' Pc Pcs]; subst. cbn [map].
  rewrite (Pc Hc), (IHcs Pcs Hcs). reflexivity.
Qed.

Lemma map_fixed {A} (F : A -> A) (P : A -> bool) (l : list A) :
  (forall x, P x = false -> F x = x) -> existsb P l = false -> map F l = l.
Proof.
  intros HF. induction l as [|x l IH]; [reflexivity|].
  cbn [existsb map]. intros [Hx Hl]%orb_false_elim. rewrite (HF x Hx), (IH Hl). reflexivity.
Qed.

(** X14. On a document with no style element and no body element the
    whole rewriter is the attribute loop: the two later passes change
    nothing. *)
Theorem rewriteDoc_plain (baseUrl : string) (doc : list node) :
  existsb (hasTag "style") doc = false ->
  existsb (hasTag "body") doc = false ->
  rewriteDoc baseUrl doc = rewriteAttrs baseUrl doc.
Proof.
  intros Hstyle Hbody. unfold rewriteDoc, injectToolbar.
  apply (hasTag_rewriteAttrs "style" baseUrl) in Hstyle.
  apply (hasTag_rewriteAttrs "body" baseUrl) in Hbody.
  rewrite (map_fixed (eachStyle _) (hasTag "style")); [|apply eachStyle_absent|exact Hstyle].
  apply (map_fixed (prepend "body" _) (hasTag "body")); [apply prepend_absent|exact Hbody].
Qed.

Lemma matchUrl_starts s : Str.startsWith "url(" s = false -> matchUrl s = None.
Proof. unfold matchUrl. intros ->. reflexivity. Qed.

Lemma noneIs_drop sep n : forall s, noneIs sep s = true -> noneIs sep (Str.drop n s) = true.
Proof.
  unfold noneIs. induction n as [|n IH]; intros s Hs; [exact Hs|].
  destruct s as [|c s]; [reflexivity|]. cbn [Str.drop].
  cbn [Str.allChars] in Hs. apply andb_prop in Hs as [_ Hs]. apply IH. exact Hs.
Qed.

Lemma matchUrl_unclosed s : noneIs ")" s = true -> matchUrl s = None.
Proof.
  intros Hs. unfold matchUrl. destruct (Str.startsWith "url(" s); [|reflexivity].
  rewrite (cut_absent ")" _ (noneIs_drop ")" 4 s Hs)).
  destruct (Str.drop 4 s); reflexivity.
Qed.

(** X15. Style text in which [url(] does not occur is left as it is, and
    so is style text with no closing parenthesis (an unclosed [url(] is
    no match). *)
Theorem rewriteCss_without_match (baseUrl css : string) :
  Str.includes "url(" css = false \/ noneIs ")" css = true ->
  rewriteCss baseUrl css = css.
Proof.
  unfold rewriteCss. induction css as [|c css IH]; [reflexivity|].
  intros Hno. cbn [replaceUrls].
  assert (M : matchUrl (String c css) = None).
  { destruct Hno as [Hno|Hno]; [|apply matchUrl_unclosed; exact Hno].
    cbn [Str.includes] in Hno. apply orb_false_elim in Hno as [Hhead _].
    apply matchUrl_starts. exact Hhead. }
  rewrite M, IH; [reflexivity|].
  destruct Hno as [Hno|Hno].
  - left. cbn [Str.includes] in Hno. apply orb_false_elim in Hno as [_ Htail]. exact Htail.
  - right. unfold noneIs in *. cbn [Str.allChars] in Hno.
    apply andb_prop in Hno as [_ Htail]. exact Htail.
Qed.

End RewriterMore.

(** ** The quote pattern *)

(** X16. What the pattern of the style callback strips: a text between
    two quote characters (of either kind, alike or not) gives back the
    text between them, and a text that neither starts nor ends with a
    quote character is left as it is. *)
Theorem stripQuotes_quoted (q1 q2 : ascii) (s t : string) :
  isQuote q1 = true -> isQuote q2 = true ->
  startsWithQuote t = false -> endsWithQuote t = false ->
  stripQuotes (String q1 (s +:+ String q2 EmptyString)) = s
  /\ stripQuotes t = t.
Proof.
  intros H1 H2 Ht1 Ht2. split.
  - unfold stripQuotes. rewrite H1. apply dropFinalQuote_snoc. exact H2.
  - unfold stripQuotes. destruct t as [|c t]; [reflexivity|].
    cbn [startsWithQuote] in Ht1. rewrite Ht1. apply dropFinalQuote_none. exact Ht2.
Qed.

(** ** The entry page, properties *)

Lemma in_firstn {A} (x : A) k : forall l, In x (firstn k l) -> In x l.
Proof.
  induction k as [|k IH]; intros l; [intros []|].
  destruct l as [|y l]; cbn [firstn]; [intros []|].
  intros [->|Hin]; [left; reflexivity|right; apply IH; exact Hin].
Qed.

Lemma nodup_firstn {A} k : forall l : list A, List.NoDup l -> List.NoDup (firstn k l).
Proof.
  induction k as [|k IH]; intros l Hl; [constructor|].
  destruct l as [|y l]; cbn [firstn]; [constructor|].
  apply List.NoDup_cons_iff in Hl as [Hy Hl]. apply List.NoDup_cons_iff. split.
  - intros Hin. apply Hy. apply (in_firstn _ k). exact Hin.
  - apply IH. exact Hl.
Qed.

(** X17. The history the page stores after a visit of [n]: at most
    eight entries, [n] first, nothing that was not [n] or in the history
    before; and when the history before had no entry twice, neither has
    the new one. *)
Theorem history_invariant (n : string) (history : list string) :
  (length (updateHistory n history) <= 8)%nat
  /\ hd_error (updateHistory n history) = Some n
  /\ (forall x, In x (updateHistory n history) -> x = n \/ In x history)
  /\ (List.NoDup history -> List.NoDup (updateHistory n history)).
Proof.
  unfold updateHistory. split; [apply List.firstn_le_length|].
  split; [reflexivity|]. split.
  - intros x [->|Hin]%in_firstn; [left; reflexivity|].
    right. apply List.filter_In in Hin as [Hin _]. exact Hin.
  - intros Hnd. apply nodup_firstn. apply List.NoDup_cons_iff. split.
    + intros [_ Hn]%List.filter_In. rewrite String.eqb_refl in Hn. discriminate Hn.
    + apply List.NoDup_filter. exact Hnd.
Qed.

Section PageFacts.
Context `{Platform}.

(** X18. When [submit] navigates, the location is a proxy path whose
    [url] parameter reads back as the normalized input, that URL is not
    empty and it heads the stored history; when it alerts, the URL
    constructor refused the input (or gave an empty text). *)
Theorem submit_outcome (url : string) (history : list string) :
  match submit url history with
  | Navigate updated location =>
      normalize (trim url) <> EmptyString
      /\ queryParam "url" location = Some (normalize (trim url))
      /\ updated = updateHistory (normalize (trim url)) history
      /\ hd_error updated = Some (normalize (trim url))
  | Alert _ => normalize (trim url) = EmptyString
  end.
Proof.
  unfold submit. destruct (normalize (trim url)) as [|c n] eqn:E; [reflexivity|].
  split; [discriminate|]. split; [|split; reflexivity].
  unfold queryParam.
  change ("/api/proxy?url=" +:+ encodeURIComponent (String c n)) with (wrap (String c n)).
  rewrite queryOf_wrap. apply lookupField_url.
Qed.

(** X19. An input without an http or https scheme (in any letter case)
    is normalized as the same input behind [https://]. *)
Theorem normalize_bare (raw : string) :
  hasScheme raw = false -> normalize raw = normalize ("https://" +:+ raw).
Proof.
  intros Hraw. unfold normalize. rewrite Hraw.
  change (hasScheme ("https://" +:+ raw)) with true. reflexivity.
Qed.

End PageFacts.

(** * Instances of the further statements *)

Lemma wrap_injective_witness :
  wrap "a?b=c#d" = wrap "a?b=c#d" /\ "a?b=c#d" = "a?b=c#d".
Proof.
  split; [reflexivity|].
  exact (wrap_injective "a?b=c#d" "a?b=c#d" eq_refl).
Defined.

Lemma relay_drops_policy_headers_witness :
  dropped "Set-Cookie" = true /\
  getHeader "Set-Cookie"
    (@relay samplePlatform (mkURL "https:" "https://example.com/")
       (mkResponse 200 [("set-cookie", "a=b"); ("content-type", "image/png")] "bytes"))
  = None.
Proof.
  split; [reflexivity|].
  exact (@relay_drops_policy_headers samplePlatform (mkURL "https:" "https://example.com/")
           (mkResponse 200 [("set-cookie", "a=b"); ("content-type", "image/png")] "bytes")
           "Set-Cookie" eq_refl).
Defined.

Lemma handler_rejects_before_fetch_witness :
  @rejected samplePlatform (Some "http://[") = true /\
  @handler samplePlatform (Some "http://[") (fun _ => None) (fun _ _ => Threw "down")
  = @handler samplePlatform (Some "http://[") (fun _ => Some "x")
      (fun _ _ => Fetched (mkResponse 200 [] "ok"))
  /\ statusCode (@handler samplePlatform (Some "http://[") (fun _ => None)
                   (fun _ _ => Threw "down")) = 400
  /\ In (sent (@handler samplePlatform (Some "http://[") (fun _ => None)
                 (fun _ _ => Threw "down")))
        ["Missing ?url= parameter"; "Invalid URL"; "Only http/https supported"].
Proof.
  split; [reflexivity|].
  exact (@handler_rejects_before_fetch samplePlatform (Some "http://[")
           (fun _ => None) (fun _ => Some "x")
           (fun _ _ => Threw "down") (fun _ _ => Fetched (mkResponse 200 [] "ok")) eq_refl).
Defined.

Lemma handler_single_request_witness :
  (forall url,
      @newURL samplePlatform (orElse (Some "https://example.com/") EmptyString) None = Some url ->
      cookieProbe (href url) (@outbound samplePlatform (fun _ => None))
      = cookieProbe (href url) (@outbound samplePlatform cookieRequest)) /\
  @handler samplePlatform (Some "https://example.com/") (fun _ => None) cookieProbe
  = @handler samplePlatform (Some "https://example.com/") cookieRequest cookieProbe.
Proof.
  assert (Hcall : forall url,
             @newURL samplePlatform (orElse (Some "https://example.com/") EmptyString) None
             = Some url ->
             cookieProbe (href url) (@outbound samplePlatform (fun _ => None))
             = cookieProbe (href url) (@outbound samplePlatform cookieRequest))
    by (intros url _; reflexivity).
  split; [exact Hcall|].
  exact (@handler_single_request samplePlatform (Some "https://example.com/")
           (fun _ => None) cookieRequest cookieProbe cookieProbe Hcall).
Defined.

Lemma other_attributes_kept_witness :
  touches "a" "class" = false /\
  In (Element "a" [("href", "/x"); ("class", "c")] [])
     (flat_map nodes [Element "a" [("href", "/x"); ("class", "c")] []]) /\
  exists a' cs',
    In (Element "a" a' cs')
       (flat_map nodes
          (@rewriteDoc samplePlatform "https://example.com/"
             [Element "a" [("href", "/x"); ("class", "c")] []]))
    /\ Obj.get "class" a' = Obj.get "class" [("href", "/x"); ("class", "c")].
Proof.
  assert (Hin : In (Element "a" [("href", "/x"); ("class", "c")] [])
                  (flat_map nodes [Element "a" [("href", "/x"); ("class", "c")] []]))
    by (left; reflexivity).
  split; [reflexivity|]. split; [exact Hin|].
  exact (@other_attributes_kept samplePlatform "https://example.com/"
           [Element "a" [("href", "/x"); ("class", "c")] []] "a" "class"
           [("href", "/x"); ("class", "c")] [] eq_refl Hin).
Defined.

Lemma unruled_element_kept_witness :
  Obj.get "div" attrTargets = None /\
  In (Element "div" [] [Text "hi"]) (flat_map nodes noBodyDoc) /\
  exists cs',
    In (Element "div" [] cs')
       (flat_map nodes (@rewriteDoc samplePlatform "https://example.com/" noBodyDoc)).
Proof.
  assert (Hin : In (Element "div" [] [Text "hi"]) (flat_map nodes noBodyDoc))
    by (left; reflexivity).
  split; [reflexivity|]. split; [exact Hin|].
  exact (@unruled_element_kept samplePlatform "https://example.com/" noBodyDoc "div"
           [] [Text "hi"] eq_refl Hin).
Defined.

Lemma rewriteDoc_plain_witness :
  existsb (hasTag "style") anchorDoc = false /\
  existsb (hasTag "body") anchorDoc = false /\
  @rewriteDoc samplePlatform "https://example.com/page" anchorDoc
  = @rewriteAttrs samplePlatform "https://example.com/page" anchorDoc.
Proof.
  split; [reflexivity|]. split; [reflexivity|].
  exact (@rewriteDoc_plain samplePlatform "https://example.com/page" anchorDoc eq_refl eq_refl).
Defined.

Lemma rewriteCss_without_match_witness :
  (Str.includes "url(" "a{color:red} b{background:url(/x.png" = false
   \/ noneIs ")" "a{color:red} b{background:url(/x.png" = true) /\
  @rewriteCss samplePlatform "https://example.com/" "a{color:red} b{background:url(/x.png"
  = "a{color:red} b{background:url(/x.png".
Proof.
  assert (Hno : Str.includes "url(" "a{color:red} b{background:url(/x.png" = false
                \/ noneIs ")" "a{color:red} b{background:url(/x.png" = true)
    by (right; reflexivity).
  split; [exact Hno|].
  exact (@rewriteCss_without_match samplePlatform "https://example.com/"
           "a{color:red} b{background:url(/x.png" Hno).
Defined.

Lemma stripQuotes_quoted_witness :
  isQuote apostrophe = true /\ isQuote dquote = true /\
  startsWithQuote "/i.png" = false /\ endsWithQuote "/i.png" = false /\
  stripQuotes (String apostrophe ("/i.png" +:+ String dquote EmptyString)) = "/i.png"
  /\ stripQuotes "/i.png" = "/i.png".
Proof.
  split; [reflexivity|]. split; [reflexivity|]. split; [reflexivity|]. split; [reflexivity|].
  exact (stripQuotes_quoted apostrophe dquote "/i.png" "/i.png" eq_refl eq_refl eq_refl eq_refl).
Defined.

Lemma normalize_bare_witness :
  hasScheme "example.com" = false /\
  @normalize samplePlatform "example.com" = @normalize samplePlatform ("https://" +:+ "example.com").
Proof.
  split; [reflexivity|].
  exact (@normalize_bare samplePlatform "example.com" eq_refl).
Defined.

Example submit_example :
  @submit samplePlatform "  example.com " ["https://a.example/"; "https://example.com/"]
  = Navigate ["https://example.com/"; "https://a.example/"]
      "/api/proxy?url=https%3A%2F%2Fexample.com%2F".
Proof. reflexivity. Qed.

Example submit_refused :
  @submit samplePlatform "http://[" ["https://a.example/"]
  = Alert "Enter a valid URL, e.g. https://example.com".
Proof. reflexivity. Qed.

(** * More on single functions *)

Lemma wrap_not_skipped u : String.eqb (wrap u) EmptyString || skipped (wrap u) = false.
Proof.
  unfold wrap.
  change ("/api/proxy?url=" +:+ encodeURIComponent u)
    with (String "/" ("api/proxy?url=" +:+ encodeURIComponent u)).
  reflexivity.
Qed.

(** X20. Rewriting is not idempotent: a rewritten attribute is not one
    the callback skips, so a second run of the callback wraps the
    wrapped value once more. *)
Theorem rewriteAttr_twice `{Platform} (baseUrl tag attr : string) (a : Obj.t) :
  untouched attr a = false ->
  untouched attr (rewriteAttr tag attr baseUrl a) = false
  /\ exists v,
      Obj.get attr a = Some v /\
      Obj.get attr (rewriteAttr tag attr baseUrl (rewriteAttr tag attr baseUrl a))
      = Some (wrap (toAbsolute (wrap (toAbsolute v baseUrl)) baseUrl)).
Proof.
  intros U. destruct (rewriteAttr_rewritten baseUrl tag attr a U) as (v & Hv & E).
  assert (G : Obj.get attr (rewriteAttr tag attr baseUrl a) = Some (wrap (toAbsolute v baseUrl)))
    by (rewrite E; apply get_set_eq).
  assert (U' : untouched attr (rewriteAttr tag attr baseUrl a) = false)
    by (unfold untouched; rewrite G; apply wrap_not_skipped).
  split; [exact U'|]. exists v. split; [exact Hv|].
  destruct (rewriteAttr_rewritten baseUrl tag attr _ U') as (v' & Hv' & ->).
  rewrite G in Hv'. injection Hv' as <-. apply get_set_eq.
Qed.

Lemma filter_all {A} (p : A -> bool) (l : list A) :
  (forall x, In x l -> p x = true) -> List.filter p l = l.
Proof.
  induction l as [|x l IH]; intros Hall; [reflexivity|].
  cbn [List.filter]. rewrite (Hall x (or_introl eq_refl)), IH; [reflexivity|].
  intros y Hy. apply Hall. right. exact Hy.
Qed.

(** X22. Visiting the same URL twice in a row leaves the history as it
    was after the first visit. *)
Theorem history_revisit (n : string) (history : list string) :
  updateHistory n (updateHistory n history) = updateHistory n history.
Proof.
  unfold updateHistory. cbn [firstn List.filter].
  rewrite String.eqb_refl. cbn [negb]. f_equal.
  rewrite filter_all.
  - rewrite List.firstn_firstn. reflexivity.
  - intros x Hx%in_firstn. apply List.filter_In in Hx as [_ Hx]. exact Hx.
Qed.

Lemma rewriteAttr_twice_witness :
  untouched "href" [("href", "/x")] = false /\
  untouched "href" (@rewriteAttr samplePlatform "a" "href" "https://example.com/" [("href", "/x")])
  = false
  /\ exists v,
      Obj.get "href" [("href", "/x")] = Some v /\
      Obj.get "href"
        (@rewriteAttr samplePlatform "a" "href" "https://example.com/"
           (@rewriteAttr samplePlatform "a" "href" "https://example.com/" [("href", "/x")]))
      = Some (wrap (@toAbsolute samplePlatform
                      (wrap (@toAbsolute samplePlatform v "https://example.com/"))
                      "https://example.com/")).
Proof.
  split; [reflexivity|].
  exact (@rewriteAttr_twice samplePlatform "https://example.com/" "a" "href"
           [("href", "/x")] eq_refl).
Defined.

Example double_wrap_example :
  Obj.get "href"
    (@rewriteAttr samplePlatform "a" "href" "https://example.com/"
       (@rewriteAttr samplePlatform "a" "href" "https://example.com/" [("href", "/x")]))
  = Some "/api/proxy?url=https%3A%2F%2Fexample.com%2Fapi%2Fproxy%3Furl%3Dhttps%253A%252F%252Fexample.com%252Fx".
Proof. reflexivity. Qed.
